(** * Employee tracker server (server.js): job tracking and forwarding

    A shallow embedding of the Express application of [server.js]: the
    in-memory job table [jobs], the [/attendance] handler with its detached
    forwarding task, the legacy [/login] and [/logout] aliases, the
    [/status/:jobId] and [/recent-activities] readers and the periodic
    [cleanupOldJobs] sweep.

    Conventions of the embedding.
    - A JavaScript value that came out of [express.json()] is a [jsval].
      Numbers are kept as integers: the handlers only test them for zero.
    - A string is the sequence of bytes of its UTF-8 encoding (an unpaired
      surrogate is written as the three bytes of its code unit), so two
      JavaScript strings are equal exactly when their byte sequences are.
    - A JavaScript object used as a table keeps its own string keys in
      insertion order; it is an association list with distinct keys.  Job
      ids are UUID strings, which are never array indices, so the
      enumeration order of [jobs] is the order of insertion.
    - [new Date()] and [Date.now()] are clock readings (milliseconds since
      the epoch) supplied with each event, [uuidv4()] is a string supplied
      with each request, and the outcome of [fetch] and of
      [response.json()] is supplied by the event that settles the promise.
    - Console output is not part of the model. *)

From Stdlib Require Import String Ascii List ZArith Bool Lia DecimalString.
Import ListNotations.

Set Warnings "-register-all".

Local Open Scope string_scope.
Local Open Scope Z_scope.

(** ** JavaScript values *)

Inductive jsval : Type :=
| VUndef
| VNull
| VBool (b : bool)
| VNum (n : Z)
| VStr (s : string)
| VArr (xs : list jsval)
| VObj (kvs : list (string * jsval)).

(** [!v] is [negb (truthy v)]. *)
Definition truthy (v : jsval) : bool :=
  match v with
  | VUndef | VNull => false
  | VBool b => b
  | VNum n => negb (n =? 0)
  | VStr s => negb (s =? "")%string
  | VArr _ | VObj _ => true
  end.

(** [a || b] on values. *)
Definition js_or (a b : jsval) : jsval := if truthy a then a else b.

(** What [JSON.stringify] keeps of a value: a property whose value is
    [undefined] is dropped, an [undefined] array element becomes [null]. *)
Fixpoint toJSON (v : jsval) : jsval :=
  match v with
  | VObj kvs =>
      VObj ((fix fields (l : list (string * jsval)) : list (string * jsval) :=
               match l with
               | [] => []
               | (k, x) :: r =>
                   match x with
                   | VUndef => fields r
                   | _ => (k, toJSON x) :: fields r
                   end
               end) kvs)
  | VArr xs =>
      VArr ((fix elems (l : list jsval) : list jsval :=
               match l with
               | [] => []
               | x :: r =>
                   match x with
                   | VUndef => VNull :: elems r
                   | _ => toJSON x :: elems r
                   end
               end) xs)
  | _ => v
  end.

(** ** Tables with string keys, in insertion order *)

Section Assoc.
Context {A : Type}.

(** [o[k]] on own properties. *)
Fixpoint assoc_get (k : string) (o : list (string * A)) : option A :=
  match o with
  | [] => None
  | (k', v) :: r => if (k =? k')%string then Some v else assoc_get k r
  end.

(** [o[k] = v]: an existing key keeps its place, a new key goes last. *)
Fixpoint assoc_set (k : string) (v : A) (o : list (string * A)) : list (string * A) :=
  match o with
  | [] => [(k, v)]
  | (k', v') :: r =>
      if (k =? k')%string then (k', v) :: r else (k', v') :: assoc_set k v r
  end.

(** [delete o[k]]. *)
Fixpoint assoc_del (k : string) (o : list (string * A)) : list (string * A) :=
  match o with
  | [] => []
  | (k', v') :: r =>
      if (k =? k')%string then assoc_del k r else (k', v') :: assoc_del k r
  end.

(** [Object.keys(o)]. *)
Definition assoc_keys (o : list (string * A)) : list string := map fst o.
End Assoc.

(** A property read on a parsed body: a missing property is [undefined]. *)
Definition obj_get (k : string) (o : list (string * jsval)) : jsval :=
  match assoc_get k o with
  | Some v => v
  | None => VUndef
  end.

(** ** Strings *)

(** The UTF-8 bytes of a code point below U+10000. *)
Definition utf8 (cp : N) : string :=
  if (cp <? 128)%N then String (ascii_of_N cp) EmptyString
  else if (cp <? 2048)%N then
    String (ascii_of_N (192 + cp / 64))
      (String (ascii_of_N (128 + cp mod 64)) EmptyString)
  else
    String (ascii_of_N (224 + cp / 4096))
      (String (ascii_of_N (128 + (cp / 64) mod 64))
         (String (ascii_of_N (128 + cp mod 64)) EmptyString)).

(** The code points [String.prototype.trim] removes: the WhiteSpace
    (TAB, VT, FF, ZWNBSP and the space separators) and the LineTerminator
    (LF, CR, LS, PS) code points of ECMAScript. *)
Definition whiteSpaceCodePoints : list N :=
  [ 0x0009; 0x000A; 0x000B; 0x000C; 0x000D; 0x0020; 0x00A0; 0x1680;
    0x2000; 0x2001; 0x2002; 0x2003; 0x2004; 0x2005; 0x2006; 0x2007;
    0x2008; 0x2009; 0x200A; 0x2028; 0x2029; 0x202F; 0x205F; 0x3000;
    0xFEFF ]%N.

Definition whiteSpaces : list string := map utf8 whiteSpaceCodePoints.

(** [s] without the prefix [p], when it starts with it. *)
Fixpoint dropPrefix (p s : string) : option string :=
  match p with
  | EmptyString => Some s
  | String a p' =>
      match s with
      | String b s' => if Ascii.eqb a b then dropPrefix p' s' else None
      | EmptyString => None
      end
  end.

(** [s] without the first of the prefixes [ps] it starts with. *)
Fixpoint dropAny (ps : list string) (s : string) : option string :=
  match ps with
  | [] => None
  | p :: rest =>
      match dropPrefix p s with
      | Some t => Some t
      | None => dropAny rest s
      end
  end.

(** [s] after dropping prefixes from [ps] as long as there is one, at
    most [n] times. *)
Fixpoint dropWhile (ps : list string) (n : nat) (s : string) : string :=
  match n with
  | O => s
  | S n' =>
      match dropAny ps s with
      | Some t => dropWhile ps n' t
      | None => s
      end
  end.

Fixpoint reverseOnto (s acc : string) : string :=
  match s with
  | EmptyString => acc
  | String c r => reverseOnto r (String c acc)
  end.

Definition reverse (s : string) : string := reverseOnto s EmptyString.

Definition trimStart (s : string) : string :=
  dropWhile whiteSpaces (String.length s) s.

Definition trimEnd (s : string) : string :=
  reverse (dropWhile (map reverse whiteSpaces) (String.length s) (reverse s)).

(** [s.trim()]. *)
Definition trim (s : string) : string := trimEnd (trimStart s).

(** [c.toUpperCase()] on one code unit (the ASCII letters). *)
Definition upper (c : ascii) : ascii :=
  let n := nat_of_ascii c in
  if ((97 <=? n) && (n <=? 122))%nat then ascii_of_nat (n - 32) else c.

(** [s.charAt(0).toUpperCase() + s.slice(1)]. *)
Definition capitalize (s : string) : string :=
  match s with
  | EmptyString => EmptyString
  | String c r => String (upper c) r
  end.

(** Decimal rendering of an integer, as a template literal prints it. *)
Definition string_of_Z (z : Z) : string := NilZero.string_of_int (Z.to_int z).

(** ** Dates *)

(** [width] decimal digits of [n], least significant last. *)
Fixpoint digits (width : nat) (n : Z) (acc : string) : string :=
  match width with
  | O => acc
  | S w =>
      digits w (n / 10)
        (String (ascii_of_nat (48 + Z.to_nat (n mod 10))) acc)
  end.

Definition msPerDay : Z := 86400000.

(** Year, month and day of a day number counted from 1970-01-01, in the
    proleptic Gregorian calendar. *)
Definition civil_from_days (days : Z) : Z * Z * Z :=
  let z := days + 719468 in
  let era := z / 146097 in
  let doe := z - era * 146097 in
  let yoe := (doe - doe / 1460 + doe / 36524 - doe / 146096) / 365 in
  let doy := doe - (365 * yoe + yoe / 4 - yoe / 100) in
  let mp := (5 * doy + 2) / 153 in
  let d := doy - (153 * mp + 2) / 5 + 1 in
  let m := if mp <? 10 then mp + 3 else mp - 9 in
  let y := yoe + era * 400 + (if m <=? 2 then 1 else 0) in
  (y, m, d).

(** [new Date(t).toISOString()] for a time value [t] in the range of
    [Date]. *)
Definition toISOString (t : Z) : string :=
  let '(y, m, d) := civil_from_days (t / msPerDay) in
  let r := t mod msPerDay in
  let year :=
    if (0 <=? y) && (y <=? 9999) then digits 4 y ""
    else ((if (y <? 0)%Z then "-" else "+") ++ digits 6 (Z.abs y) "")%string in
  (year ++ "-" ++ digits 2 m "" ++ "-" ++ digits 2 d "" ++ "T"
   ++ digits 2 (r / 3600000) "" ++ ":" ++ digits 2 (r / 60000 mod 60) ""
   ++ ":" ++ digits 2 (r / 1000 mod 60) "" ++ "."
   ++ digits 3 (r mod 1000) "" ++ "Z")%string.


(** ** Results of statements that may throw *)

Inductive outcome (A : Type) : Type :=
| Ok (a : A)
| Throw (message : string).
Arguments Ok {A} a.
Arguments Throw {A} message.

Definition bind {A B : Type} (m : outcome A) (k : A -> outcome B) : outcome B :=
  match m with
  | Ok a => k a
  | Throw e => Throw e
  end.

Notation "x <- m ;; k" := (bind m (fun x => k))
  (at level 61, m at next level, right associativity).

(** ** Job records and the job table *)

Inductive Status : Type := processing | success | failed.

Definition status_string (s : Status) : string :=
  match s with
  | processing => "processing"
  | success => "success"
  | failed => "failed"
  end.

Definition Status_eqb (a b : Status) : bool :=
  match a, b with
  | processing, processing | success, success | failed, failed => true
  | _, _ => false
  end.

(** The object stored under a job id.  [error] and [n8nResponse] are
    [None] while the property does not exist. *)
Record Job : Type := mkJob {
  status : Status;
  action : string;
  name : jsval;
  timestamp : string;
  error : option string;
  n8nResponse : option jsval
}.

Definition setStatus (s : Status) (j : Job) : Job :=
  mkJob s (action j) (name j) (timestamp j) (error j) (n8nResponse j).

Definition setError (m : string) (j : Job) : Job :=
  mkJob (status j) (action j) (name j) (timestamp j) (Some m) (n8nResponse j).

Definition setN8nResponse (v : jsval) (j : Job) : Job :=
  mkJob (status j) (action j) (name j) (timestamp j) (error j) (Some v).

Definition cannotSet : string :=
  "Cannot set properties of undefined (setting 'status')".

Definition cannotRead : string :=
  "Cannot read properties of undefined (reading 'timestamp')".

(** [jobs[jobId].p = v]: a [TypeError] when [jobs[jobId]] is undefined,
    otherwise the record is changed where it stands. *)
Definition job_assign (jobId : string) (f : Job -> Job)
    (js : list (string * Job)) : outcome (list (string * Job)) :=
  match assoc_get jobId js with
  | None => Throw cannotSet
  | Some j => Ok (assoc_set jobId (f j) js)
  end.

(** ** The webhook *)

Definition N8N_WEBHOOKS : list (string * string) :=
  [ ("login", "https://sanchit2007.app.n8n.cloud/webhook/login");
    ("logout", "https://sanchit2007.app.n8n.cloud/webhook/logout") ].

(** [N8N_WEBHOOKS[action] || N8N_WEBHOOKS.login]. *)
Definition webhookUrl (act : string) : string :=
  match assoc_get act N8N_WEBHOOKS with
  | Some u => u
  | None => "https://sanchit2007.app.n8n.cloud/webhook/login"
  end.

(** The headers of every outbound call. *)
Definition webhookHeaders : list (string * string) :=
  [ ("Content-Type", "application/json");
    ("User-Agent", "Employee-Tracker/1.0") ].

(** One call of [fetch]: the URL and the options object.  [w_body] is the
    [webhookData] object handed to [JSON.stringify]. *)
Record WebhookCall : Type := mkCall {
  w_url : string;
  w_method : string;
  w_headers : list (string * string);
  w_body : jsval;
  w_timeout : Z
}.

(** How the promise of [fetch] settles: a response with its status code, or
    a rejection with the message of its error. *)
Inductive FetchResult : Type :=
| Responded (code : Z)
| Rejected (message : string).

(** [response.ok]. *)
Definition response_ok (code : Z) : bool := (200 <=? code) && (code <=? 299).

(** How [response.json()] settles. *)
Inductive JsonResult : Type :=
| Parsed (v : jsval)
| ParseFailed.

(** ** The state of the process *)

(** Where a forwarding task is suspended. *)
Inductive Phase : Type := AwaitFetch | AwaitJson.

Definition Phase_eqb (a b : Phase) : bool :=
  match a, b with
  | AwaitFetch, AwaitFetch | AwaitJson, AwaitJson => true
  | _, _ => false
  end.

(** [jobs] is the table of the source.  [tasks] are the forwarding tasks
    suspended at an [await], [issued] the results of [uuidv4()] so far, in
    order, [outbox] the calls of [fetch] so far, and [unhandled] the
    rejections of forwarding tasks: the job id and the message of the error
    that left the task. *)
Record World : Type := mkWorld {
  jobs : list (string * Job);
  tasks : list (string * Phase);
  issued : list string;
  outbox : list WebhookCall;
  unhandled : list (string * string)
}.

Definition initial : World := mkWorld [] [] [] [] [].

Definition with_jobs (js : list (string * Job)) (w : World) : World :=
  mkWorld js (tasks w) (issued w) (outbox w) (unhandled w).

Definition with_tasks (ts : list (string * Phase)) (w : World) : World :=
  mkWorld (jobs w) ts (issued w) (outbox w) (unhandled w).

Definition task_eqb (jobId : string) (ph : Phase) (t : string * Phase) : bool :=
  (fst t =? jobId)%string && Phase_eqb (snd t) ph.

Definition has_task (jobId : string) (ph : Phase) (w : World) : bool :=
  existsb (task_eqb jobId ph) (tasks w).

Definition drop_task (jobId : string) (ph : Phase) (w : World) : World :=
  with_tasks (filter (fun t => negb (task_eqb jobId ph t)) (tasks w)) w.

(** ** The forwarding task (the async function started by [/attendance]) *)

(** The [catch] block of the task.  Its two assignments are not guarded:
    when [jobs[jobId]] is undefined the [TypeError] leaves the task. *)
Definition forwarderCatch (jobId message : string) (w : World) : World :=
  match
    (js1 <- job_assign jobId (setStatus failed) (jobs w) ;;
     job_assign jobId (setError message) js1)
  with
  | Ok js => with_jobs js w
  | Throw e =>
      mkWorld (jobs w) (tasks w) (issued w) (outbox w)
        (unhandled w ++ [(jobId, e)])
  end.

Definition webhookData (nm : string) (department date time : jsval)
    (act jobId : string) (now : Z) : jsval :=
  VObj [ ("name", VStr (trim nm));
         ("department", department);
         ("date", date);
         ("time", time);
         ("action", VStr act);
         ("jobId", VStr jobId);
         ("timestamp", VStr (toISOString now)) ].

(** The task up to its first [await].  [name.trim()] is a [TypeError] for a
    name that is not a string; it is thrown inside the [try]. *)
Definition forwarderStart (jobId : string) (nm department date time : jsval)
    (act : string) (now : Z) (w : World) : World :=
  match nm with
  | VStr s =>
      let call :=
        mkCall (webhookUrl act) "POST" webhookHeaders
          (webhookData s department date time act jobId now)
          30000 in
      mkWorld (jobs w) (tasks w ++ [(jobId, AwaitFetch)]) (issued w)
        (outbox w ++ [call]) (unhandled w)
  | _ => forwarderCatch jobId "name.trim is not a function" w
  end.

(** The task resumed when [fetch] settles. *)
Definition fetchSettled (jobId : string) (r : FetchResult) (w : World) : World :=
  let w0 := drop_task jobId AwaitFetch w in
  match r with
  | Responded code =>
      if response_ok code
      then with_tasks (tasks w0 ++ [(jobId, AwaitJson)]) w0
      else forwarderCatch jobId
             ("N8N webhook responded with status: " ++ string_of_Z code) w0
  | Rejected message => forwarderCatch jobId message w0
  end.

(** The task resumed when [response.json().catch(...)] settles. *)
Definition jsonSettled (jobId : string) (r : JsonResult) (w : World) : World :=
  let n8n :=
    match r with
    | Parsed v => v
    | ParseFailed => VObj [("status", VStr "success")]
    end in
  let w0 := drop_task jobId AwaitJson w in
  match
    (js1 <- job_assign jobId (setStatus success) (jobs w0) ;;
     job_assign jobId (setN8nResponse n8n) js1)
  with
  | Ok js => with_jobs js w0
  | Throw e => forwarderCatch jobId e w0
  end.

(** ** HTTP handlers *)

Record Response : Type := mkResponse {
  code : Z;
  body : jsval
}.

(** [res.status(c).json(v)]. *)
Definition res_json (c : Z) (v : jsval) : Response := mkResponse c (toJSON v).

(** What a request reads from outside the process: the result of
    [uuidv4()], and the two readings of the clock (the record's timestamp,
    then the timestamp of the outbound payload). *)
Record Oracle : Type := mkOracle {
  o_uuid : string;
  o_now1 : Z;
  o_now2 : Z
}.

Definition missingFields : jsval :=
  VObj [("error",
         VStr "Missing required fields: name, department, date, time, action")].

Definition badAction : jsval :=
  VObj [("error", VStr "Action must be either 'login' or 'logout'")].

(** [['login', 'logout'].includes(action)]. *)
Definition includesAction (v : jsval) : option string :=
  match v with
  | VStr s => if ((s =? "login") || (s =? "logout"))%string then Some s else None
  | _ => None
  end.

(** Does the conversion of a value to a string, as a template literal
    does it, return?  A parsed object that has a property [toString] of
    its own has no callable [toString], and neither a [valueOf] of its own
    nor [Object.prototype.valueOf] gives a primitive: the conversion
    throws a [TypeError].  Any other object is '[object Object]'.  An
    array joins the conversions of its elements, null giving the empty
    string. *)
Fixpoint stringifies (v : jsval) : bool :=
  match v with
  | VObj kvs =>
      match assoc_get "toString" kvs with
      | Some _ => false
      | None => true
      end
  | VArr xs =>
      (fix all (l : list jsval) : bool :=
         match l with
         | [] => true
         | x :: r => stringifies x && all r
         end) xs
  | _ => true
  end.

Definition cannotConvert : string := "Cannot convert object to primitive value".

(** The answer of the [catch] of a handler. *)
Definition internalError (message : string) : jsval :=
  VObj [ ("error", VStr "Internal server error"); ("message", VStr message) ].

(** [app.post("/attendance", ...)].  [reqBody] is [req.body], the object
    [express.json()] left on the request.  The template literal of the
    [console.log] that follows the creation of the record converts the
    name, the department, the date and the time to strings; when one of
    the conversions throws, the [catch] of the handler answers 500, the
    record stays as it was created and the forwarding task is not
    started.  (A name that passed here converts again in the log lines of
    the task.) *)
Definition postAttendance (reqBody : list (string * jsval)) (o : Oracle)
    (w : World) : World * Response :=
  let nm := obj_get "name" reqBody in
  let department := obj_get "department" reqBody in
  let date := obj_get "date" reqBody in
  let time := obj_get "time" reqBody in
  let act := obj_get "action" reqBody in
  if negb (truthy nm) || negb (truthy department) || negb (truthy date)
     || negb (truthy time) || negb (truthy act)
  then (w, res_json 400 missingFields)
  else
    match includesAction act with
    | None => (w, res_json 400 badAction)
    | Some a =>
        let jobId := o_uuid o in
        let job := mkJob processing a nm (toISOString (o_now1 o)) None None in
        let w1 :=
          mkWorld (assoc_set jobId job (jobs w)) (tasks w)
            (issued w ++ [jobId]) (outbox w) (unhandled w) in
        if stringifies nm && stringifies department && stringifies date
           && stringifies time
        then
          let w2 := forwarderStart jobId nm department date time a (o_now2 o) w1 in
          (w2,
           res_json 200
             (VObj [ ("success", VBool true);
                     ("jobId", VStr jobId);
                     ("message",
                      VStr (capitalize a ++ " request submitted successfully"));
                     ("action", VStr a) ]))
        else (w1, res_json 500 (internalError cannotConvert))
    end.

(** [app.get("/health", ...)]. *)
Definition getHealth (o : Oracle) : Response :=
  res_json 200
    (VObj [ ("status", VStr "healthy");
            ("timestamp", VStr (toISOString (o_now1 o))) ]).

Definition opt_prop {A : Type} (inj : A -> jsval) (x : option A) : jsval :=
  match x with
  | Some a => inj a
  | None => VUndef
  end.

(** [app.get("/status/:jobId", ...)], for a [jobId] that is not the name of
    a property of [Object.prototype]. *)
Definition getStatus (jobId : string) (w : World) : Response :=
  match assoc_get jobId (jobs w) with
  | None => res_json 404 (VObj [("status", VStr "not_found")])
  | Some job =>
      res_json 200
        (VObj [ ("status", VStr (status_string (status job)));
                ("action", VStr (action job));
                ("name", name job);
                ("timestamp", VStr (timestamp job));
                ("error", js_or (opt_prop VStr (error job)) VNull);
                ("n8nResponse", js_or (opt_prop (fun v => v) (n8nResponse job)) VNull) ])
  end.

(** [l.slice(-n)]. *)
Definition slice_last {A : Type} (n : nat) (l : list A) : list A :=
  skipn (length l - n) l.

Definition isSuccess (e : string * Job) : bool := Status_eqb (status (snd e)) success.

Definition activity (e : string * Job) : jsval :=
  VObj [ ("jobId", VStr (fst e));
         ("name", name (snd e));
         ("action", VStr (action (snd e)));
         ("timestamp", VStr (timestamp (snd e))) ].

(** The array [recentJobs] of [app.get("/recent-activities", ...)]. *)
Definition recentJobs (js : list (string * Job)) : list jsval :=
  rev (map activity (slice_last 10 (filter isSuccess js))).

Definition getRecentActivities (w : World) : Response :=
  res_json 200 (VArr (recentJobs (jobs w))).

(** ** Routing *)

Inductive Method : Type := GET | POST.

Definition Method_eqb (a b : Method) : bool :=
  match a, b with
  | GET, GET | POST, POST => true
  | _, _ => false
  end.

Record Request : Type := mkRequest {
  method : Method;
  url : string;
  reqBody : list (string * jsval)
}.

Inductive Handler : Type :=
| HHealth | HAttendance | HLogin | HLogout | HStatus | HRecentActivities.

(** The routes, in the order in which the source registers them. *)
Definition routes : list (Method * string * Handler) :=
  [ (GET, "/health", HHealth);
    (POST, "/attendance", HAttendance);
    (POST, "/login", HLogin);
    (POST, "/logout", HLogout);
    (GET, "/status/:jobId", HStatus);
    (GET, "/recent-activities", HRecentActivities) ].

(** The segments of a path between its slashes. *)
Fixpoint segments (s : string) (cur : string) : list string :=
  match s with
  | EmptyString => [cur]
  | String c r =>
      if Ascii.eqb c "/"%char then cur :: segments r EmptyString
      else segments r (cur ++ String c EmptyString)
  end.

(** A pattern segment [:x] takes any segment that is not empty and binds
    it; any other segment takes itself. *)
Fixpoint matchSegments (pat path : list string) : option (list (string * string)) :=
  match pat, path with
  | [], [] => Some []
  | p :: pat', s :: path' =>
      match p with
      | String ":" x =>
          if (s =? "")%string then None
          else option_map (cons (x, s)) (matchSegments pat' path')
      | _ => if (p =? s)%string then matchSegments pat' path' else None
      end
  | _, _ => None
  end.

Definition matchPath (pat path : string) : option (list (string * string)) :=
  matchSegments (segments pat EmptyString) (segments path EmptyString).

(** The first route of the table that takes the request. *)
Fixpoint findRoute (table : list (Method * string * Handler)) (m : Method)
    (path : string) : option (Handler * list (string * string)) :=
  match table with
  | [] => None
  | (m', pat, h) :: rest =>
      if Method_eqb m m'
      then match matchPath pat path with
           | Some params => Some (h, params)
           | None => findRoute rest m path
           end
      else findRoute rest m path
  end.

Definition param (k : string) (params : list (string * string)) : string :=
  match assoc_get k params with
  | Some v => v
  | None => ""
  end.

(** [app._router.handle(req, res)]: the handler of the first matching route
    runs; the last middleware answers what no route takes.  The legacy
    handlers assign [req.body.action] and hand a copy of the request, with
    method POST and url [/attendance], back to the router: [fuel] bounds
    that nesting.  Paths are compared as they are written: the router's
    matching without regard to case, its optional final slash and the
    decoding of parameters are left out, and so is the static file
    middleware, which only answers GET and HEAD requests. *)
Fixpoint handle (fuel : nat) (req : Request) (o : Oracle) (w : World)
    : option (World * Response) :=
  match fuel with
  | O => None
  | S fuel' =>
      match findRoute routes (method req) (url req) with
      | None => Some (w, res_json 404 (VObj [("error", VStr "Endpoint not found")]))
      | Some (h, params) =>
          match h with
          | HHealth => Some (w, getHealth o)
          | HAttendance => Some (postAttendance (reqBody req) o w)
          | HLogin =>
              handle fuel'
                (mkRequest POST "/attendance"
                   (assoc_set "action" (VStr "login") (reqBody req))) o w
          | HLogout =>
              handle fuel'
                (mkRequest POST "/attendance"
                   (assoc_set "action" (VStr "logout") (reqBody req))) o w
          | HStatus => Some (w, getStatus (param "jobId" params) w)
          | HRecentActivities => Some (w, getRecentActivities w)
          end
      end
  end.

(** ** A parser for the dates the server writes *)

Definition digitValue (c : ascii) : option Z :=
  let n := nat_of_ascii c in
  if ((48 <=? n) && (n <=? 57))%nat then Some (Z.of_nat (n - 48)) else None.

(** The value of a string of [width] decimal digits. *)
Fixpoint readDigits (width : nat) (s : string) (acc : Z) : option (Z * string) :=
  match width with
  | O => Some (acc, s)
  | S w =>
      match s with
      | EmptyString => None
      | String c r =>
          match digitValue c with
          | Some d => readDigits w r (10 * acc + d)
          | None => None
          end
      end
  end.

Definition expect (c : ascii) (s : string) : option string :=
  match s with
  | String c' r => if Ascii.eqb c c' then Some r else None
  | EmptyString => None
  end.

(** The day number of a date, counted from 1970-01-01. *)
Definition days_from_civil (y m d : Z) : Z :=
  let y' := if m <=? 2 then y - 1 else y in
  let era := y' / 400 in
  let yoe := y' - era * 400 in
  let mp := if m <=? 2 then m + 9 else m - 3 in
  let doy := (153 * mp + 2) / 5 + d - 1 in
  let doe := yoe * 365 + yoe / 4 - yoe / 100 + doy in
  era * 146097 + doe - 719468.

Definition obind {A B : Type} (m : option A) (k : A -> option B) : option B :=
  match m with
  | Some a => k a
  | None => None
  end.

(** The time value of a string of the form [YYYY-MM-DDTHH:mm:ss.sssZ], the
    form [toISOString] writes for the years 0 to 9999; [None] for any other
    string.  It is one possible [Date] parser, used to run the model. *)
Definition parseISO (s : string) : option Z :=
  obind (readDigits 4 s 0) (fun '(y, s) =>
  obind (expect "-" s) (fun s =>
  obind (readDigits 2 s 0) (fun '(m, s) =>
  obind (expect "-" s) (fun s =>
  obind (readDigits 2 s 0) (fun '(d, s) =>
  obind (expect "T" s) (fun s =>
  obind (readDigits 2 s 0) (fun '(hh, s) =>
  obind (expect ":" s) (fun s =>
  obind (readDigits 2 s 0) (fun '(mm, s) =>
  obind (expect ":" s) (fun s =>
  obind (readDigits 2 s 0) (fun '(ss, s) =>
  obind (expect "." s) (fun s =>
  obind (readDigits 3 s 0) (fun '(ms, s) =>
  if (s =? "Z")%string
     && (1 <=? m) && (m <=? 12) && (1 <=? d) && (d <=? 31)
     && (hh <=? 23) && (mm <=? 59) && (ss <=? 59)
  then Some (days_from_civil y m d * msPerDay
             + hh * 3600000 + mm * 60000 + ss * 1000 + ms)
  else None))))))))))))).

(** ** The sweep and the events of the process *)

Section Server.

(** [new Date(s)] for a string [s]: the time value, or [None] for an
    invalid date. *)
Variable dateParse : string -> option Z.

(** The body of the [forEach] of [cleanupOldJobs] for one key.  An
    invalid date compares false with everything. *)
Definition cleanupJob (oneHourAgo : Z) (jobId : string)
    (js : list (string * Job)) : outcome (list (string * Job)) :=
  match assoc_get jobId js with
  | None => Throw cannotRead
  | Some job =>
      match dateParse (timestamp job) with
      | Some jobTime =>
          if jobTime <? oneHourAgo then Ok (assoc_del jobId js) else Ok js
      | None => Ok js
      end
  end.

Fixpoint forEachKey (f : string -> list (string * Job) -> outcome (list (string * Job)))
    (keys : list string) (js : list (string * Job)) : outcome (list (string * Job)) :=
  match keys with
  | [] => Ok js
  | k :: rest => js' <- f k js ;; forEachKey f rest js'
  end.

(** [cleanupOldJobs()] when [Date.now()] is [now]: the keys are listed
    once, before the loop. *)
Definition cleanupOldJobs (now : Z) (js : list (string * Job))
    : outcome (list (string * Job)) :=
  let oneHourAgo := now - 60 * 60 * 1000 in
  forEachKey (cleanupJob oneHourAgo) (assoc_keys js) js.

(** A record is due for eviction when its timestamp is a valid date
    strictly before the cutoff. *)
Definition expired (oneHourAgo : Z) (job : Job) : bool :=
  match dateParse (timestamp job) with
  | Some jobTime => jobTime <? oneHourAgo
  | None => false
  end.

Inductive Event : Type :=
| EvRequest (req : Request) (o : Oracle)
| EvFetchSettled (jobId : string) (r : FetchResult)
| EvJsonSettled (jobId : string) (r : JsonResult)
| EvCleanup (now : Z).

(** An event can happen when [uuidv4()] returns an identifier it has not
    returned before, and when a promise settles that a task awaits. *)
Definition enabled (e : Event) (w : World) : bool :=
  match e with
  | EvRequest _ o => negb (existsb (String.eqb (o_uuid o)) (issued w))
  | EvFetchSettled jobId _ => has_task jobId AwaitFetch w
  | EvJsonSettled jobId _ => has_task jobId AwaitJson w
  | EvCleanup _ => true
  end.

(** The state after an event, and the response to a request. *)
Definition step (e : Event) (w : World) : World * option Response :=
  match e with
  | EvRequest req o =>
      match handle 2 req o w with
      | Some (w', r) => (w', Some r)
      | None => (w, None)
      end
  | EvFetchSettled jobId r => (fetchSettled jobId r w, None)
  | EvJsonSettled jobId r => (jsonSettled jobId r w, None)
  | EvCleanup now =>
      match cleanupOldJobs now (jobs w) with
      | Ok js => (with_jobs js w, None)
      | Throw e =>
          (mkWorld (jobs w) (tasks w) (issued w) (outbox w)
             (unhandled w ++ [("cleanupOldJobs", e)]), None)
      end
  end.

(** The state after a sequence of events, when each can happen in turn. *)
Fixpoint run (es : list Event) (w : World) : option World :=
  match es with
  | [] => Some w
  | e :: rest => if enabled e w then run rest (fst (step e w)) else None
  end.

End Server.

(** ** Auxiliary notions *)

(** [v.k] on a value. *)
Definition js_get (k : string) (v : jsval) : jsval :=
  match v with
  | VObj kvs => obj_get k kvs
  | _ => VUndef
  end.

(** A submission that passes both checks of the attendance handler. *)
Definition validSubmission (b : list (string * jsval)) : bool :=
  truthy (obj_get "name" b) && truthy (obj_get "department" b)
  && truthy (obj_get "date" b) && truthy (obj_get "time" b)
  && truthy (obj_get "action" b)
  && match includesAction (obj_get "action" b) with
     | Some _ => true
     | None => false
     end.

(** The alias as the specification words it: the implied action is put
    into the body and the logic of [/attendance] runs on the result. *)
Definition aliasOf (act : string) (b : list (string * jsval)) (o : Oracle)
    (w : World) : World * Response :=
  postAttendance (assoc_set "action" (VStr act) b) o w.

(** ** Sample data *)

Definition alice : list (string * jsval) :=
  [ ("name", VStr "  Alice ");
    ("department", VStr "Eng");
    ("date", VStr "2024-01-01");
    ("time", VStr "09:00");
    ("action", VStr "login") ].

Definition aliceEmptyAction : list (string * jsval) :=
  [ ("name", VStr "Alice");
    ("department", VStr "Eng");
    ("date", VStr "2024-01-01");
    ("time", VStr "09:00");
    ("action", VStr "") ].

(** 2024-01-01T09:00:00.000Z. *)
Definition nineOClock : Z := 1704099600000.

Definition aliceId : string := "0b0e6d62-7c1c-4e6e-9d56-3f1c2a4b5c6d".

Definition submitAlice : Event :=
  EvRequest (mkRequest POST "/attendance" alice)
    (mkOracle aliceId nineOClock nineOClock).

Definition sampleJobs : list (string * Job) :=
  [ ("a", mkJob processing "login" (VStr "Ann") (toISOString 0) None None);
    ("b", mkJob success "logout" (VStr "Bob") (toISOString nineOClock) None
            (Some (VObj [("status", VStr "success")])));
    ("c", mkJob failed "login" (VStr "Cy") "not a date" (Some "fetch failed") None) ].

Definition aliceMaybe : list (string * jsval) :=
  [ ("name", VStr "Alice");
    ("department", VStr "Eng");
    ("date", VStr "2024-01-01");
    ("time", VStr "09:00");
    ("action", VStr "maybe") ].

Definition aliceProcessing : Job :=
  mkJob processing "login" (VStr "  Alice ") "2024-01-01T09:00:00.000Z" None None.

Definition aliceSucceeded : Job :=
  mkJob success "login" (VStr "  Alice ") "2024-01-01T09:00:00.000Z" None
    (Some (VObj [("status", VStr "success")])).

(** The state after Alice's submission, and the state after the webhook
    answered 200 with a body that does not parse. *)
Definition afterSubmit : World :=
  Eval vm_compute in fst (step parseISO submitAlice initial).

Definition afterSuccess : World :=
  Eval vm_compute in
    fst (step parseISO (EvJsonSettled aliceId ParseFailed)
           (fst (step parseISO (EvFetchSettled aliceId (Responded 200)) afterSubmit))).

(** Twelve successful records, keyed A to L in the order of insertion. *)
Definition twelveJobs : list (string * Job) :=
  map (fun n =>
         (String (ascii_of_nat (65 + n)) EmptyString,
          mkJob success "login" (VStr "Ann") (toISOString (Z.of_nat n)) None
            (Some VNull)))
      (seq 0 12).

Definition numericName : list (string * jsval) :=
  [ ("name", VNum 5);
    ("department", VStr "Eng");
    ("date", VStr "2024-01-01");
    ("time", VStr "09:00");
    ("action", VStr "logout") ].

(** ** What holds of the states the process can reach *)

(** A record carries exactly the optional properties of its status, and the
    name that passed the validation. *)
Definition job_ok (j : Job) : Prop :=
  truthy (name j) = true /\
  match status j with
  | processing => error j = None /\ n8nResponse j = None
  | success => error j = None /\ n8nResponse j <> None
  | failed => error j <> None /\ n8nResponse j = None
  end.

Definition task_ids (w : World) : list string := map fst (tasks w).

(** [l] is [m] with some elements left out. *)
Inductive subseq {A : Type} : list A -> list A -> Prop :=
| subseq_nil : subseq [] []
| subseq_skip x l m : subseq l m -> subseq l (x :: m)
| subseq_keep x l m : subseq l m -> subseq (x :: l) (x :: m).

Record Inv (w : World) : Prop := mkInv {
  inv_keys_distinct : NoDup (assoc_keys (jobs w));
  inv_keys_issued : forall id, In id (assoc_keys (jobs w)) -> In id (issued w);
  inv_tasks_distinct : NoDup (task_ids w);
  inv_tasks_issued : forall id, In id (task_ids w) -> In id (issued w);
  inv_tasks_processing :
    forall id j, In id (task_ids w) -> assoc_get id (jobs w) = Some j ->
                 status j = processing;
  inv_jobs_ok : forall id j, assoc_get id (jobs w) = Some j -> job_ok j;
  inv_creation_order : subseq (assoc_keys (jobs w)) (issued w)
}.

(** How the record under one job id may differ between an earlier and a
    later state: it may disappear, it does not come back, and while it is
    there its status stays or leaves [processing]. *)
Definition evolves (a b : option Job) : Prop :=
  match a, b with
  | None, None => True
  | None, Some _ => False
  | Some _, None => True
  | Some j, Some j' => status j' = status j \/ status j = processing
  end.

Definition follows (w w' : World) : Prop :=
  Inv w' /\
  incl (issued w) (issued w') /\
  forall id, In id (issued w) ->
             evolves (assoc_get id (jobs w)) (assoc_get id (jobs w')).

(** ** How one event changes the state *)

Definition webhookBase : string := "https://sanchit2007.app.n8n.cloud/webhook/".

Definition nameNotAFunction : string := "name.trim is not a function".

(** The ways in which the handlers, the forwarding task and the sweep
    change the state: a request that creates nothing; a submission whose
    task reaches [fetch]; a submission answered 500, whose task is not
    started; a submission whose task fails on [name.trim()];
    a successful response, after which the task awaits the body; the
    [catch] block writing the failure; the task writing the success; an
    error leaving the task because the record is gone; the sweep. *)
Inductive transition (w : World) : World -> Prop :=
| tr_none : transition w w
| tr_create jobId act s department date time now1 now2 :
    ~ In jobId (issued w) ->
    act = "login" \/ act = "logout" ->
    s <> "" ->
    transition w
      (mkWorld
         (assoc_set jobId
            (mkJob processing act (VStr s) (toISOString now1) None None) (jobs w))
         (tasks w ++ [(jobId, AwaitFetch)])
         (issued w ++ [jobId])
         (outbox w ++
          [mkCall (webhookUrl act) "POST" webhookHeaders
             (webhookData s department date time act jobId now2) 30000])
         (unhandled w))
| tr_create_only jobId act nm now1 :
    ~ In jobId (issued w) ->
    act = "login" \/ act = "logout" ->
    truthy nm = true ->
    transition w
      (mkWorld
         (assoc_set jobId
            (mkJob processing act nm (toISOString now1) None None) (jobs w))
         (tasks w) (issued w ++ [jobId]) (outbox w) (unhandled w))
| tr_create_failed jobId act nm now1 :
    ~ In jobId (issued w) ->
    act = "login" \/ act = "logout" ->
    truthy nm = true ->
    (forall s, nm <> VStr s) ->
    transition w
      (mkWorld
         (assoc_set jobId
            (mkJob failed act nm (toISOString now1) (Some nameNotAFunction) None)
            (jobs w))
         (tasks w) (issued w ++ [jobId]) (outbox w) (unhandled w))
| tr_responded jobId :
    In (jobId, AwaitFetch) (tasks w) ->
    transition w
      (with_tasks (tasks (drop_task jobId AwaitFetch w) ++ [(jobId, AwaitJson)]) w)
| tr_failed jobId ph j message :
    In (jobId, ph) (tasks w) ->
    assoc_get jobId (jobs w) = Some j ->
    transition w
      (mkWorld (assoc_set jobId (setError message (setStatus failed j)) (jobs w))
         (tasks (drop_task jobId ph w)) (issued w) (outbox w) (unhandled w))
| tr_succeeded jobId j v :
    In (jobId, AwaitJson) (tasks w) ->
    assoc_get jobId (jobs w) = Some j ->
    transition w
      (mkWorld (assoc_set jobId (setN8nResponse v (setStatus success j)) (jobs w))
         (tasks (drop_task jobId AwaitJson w)) (issued w) (outbox w) (unhandled w))
| tr_escaped jobId ph :
    In (jobId, ph) (tasks w) ->
    assoc_get jobId (jobs w) = None ->
    transition w
      (mkWorld (jobs w) (tasks (drop_task jobId ph w)) (issued w) (outbox w)
         (unhandled w ++ [(jobId, cannotSet)]))
| tr_swept f :
    transition w (with_jobs (filter f (jobs w)) w).

(** The life of the record under one job id between an earlier and a later
    state: gone for good, untouched, or written once while it was
    processing, by the [catch] block or by the success branch. *)
Definition rewritten (a b : option Job) : Prop :=
  match a, b with
  | None, None => True
  | None, Some _ => False
  | Some _, None => True
  | Some j, Some j' =>
      j' = j \/
      (status j = processing /\
       ((exists message, j' = setError message (setStatus failed j)) \/
        (exists v, j' = setN8nResponse v (setStatus success j))))
  end.

(** What every record of the table looks like. *)
Definition job_shape (j : Job) : Prop :=
  (action j = "login" \/ action j = "logout") /\
  truthy (name j) = true /\
  exists now, timestamp j = toISOString now.

(** What every outbound call looks like: a POST with the two headers and
    the timeout option, to the webhook of the action in its payload. *)
Definition call_shape (c : WebhookCall) : Prop :=
  w_method c = "POST" /\
  w_headers c = webhookHeaders /\
  w_timeout c = 30000 /\
  exists act,
    (act = "login" \/ act = "logout") /\
    js_get "action" (w_body c) = VStr act /\
    w_url c = (webhookBase ++ act)%string.

(** The job id in the payload of a call. *)
Definition call_jobId (c : WebhookCall) : jsval := js_get "jobId" (w_body c).

(** ** White space at the ends of a string *)

(** A string made of strings of [ps], one after the other. *)
Inductive madeOf (ps : list string) : string -> Prop :=
| madeOf_empty : madeOf ps EmptyString
| madeOf_more p s : In p ps -> madeOf ps s -> madeOf ps (p ++ s).

(** A string of white space only. *)
Definition blank (s : string) : Prop := madeOf whiteSpaces s.

(** The conversions of the log line of the attendance handler return. *)
Definition loggable (b : list (string * jsval)) : bool :=
  stringifies (obj_get "name" b) && stringifies (obj_get "department" b)
  && stringifies (obj_get "date" b) && stringifies (obj_get "time" b).

(** The state in which a valid submission leaves the record, before the
    log line. *)
Definition created (b : list (string * jsval)) (act : string) (o : Oracle)
    (w : World) : World :=
  mkWorld
    (assoc_set (o_uuid o)
       (mkJob processing act (obj_get "name" b) (toISOString (o_now1 o)) None None)
       (jobs w))
    (tasks w) (issued w ++ [o_uuid o]) (outbox w) (unhandled w).

(** A body whose department cannot be converted to a string. *)
Definition oddDepartment : list (string * jsval) :=
  [ ("name", VStr "Alice");
    ("department", VObj [("toString", VNum 1)]);
    ("date", VStr "2024-01-01");
    ("time", VStr "09:00");
    ("action", VStr "login") ].

Definition blankName : list (string * jsval) :=
  [ ("name", VStr "   ");
    ("department", VStr "Eng");
    ("date", VStr "2024-01-01");
    ("time", VStr "09:00");
    ("action", VStr "logout") ].

(** ** More sample data *)

(** The state after Alice's submission and a sweep more than an hour
    later, and the state after [fetch] then rejects. *)
Definition afterSweep : World :=
  Eval vm_compute in fst (step parseISO (EvCleanup (nineOClock + 3600001)) afterSubmit).

Definition afterEscape : World :=
  Eval vm_compute in
    fst (step parseISO (EvFetchSettled aliceId (Rejected "fetch failed")) afterSweep).

(** The state after the submission of [oddDepartment], which is answered
    500, and the record it leaves. *)
Definition submitOdd : Event :=
  EvRequest (mkRequest POST "/attendance" oddDepartment)
    (mkOracle aliceId nineOClock nineOClock).

Definition afterOdd : World :=
  Eval vm_compute in fst (step parseISO submitOdd initial).

Definition oddRecord : Job :=
  mkJob processing "login" (VStr "Alice") "2024-01-01T09:00:00.000Z" None None.

(** A second submission, of Alice, under another job id, and the state
    after a sweep and this submission. *)
Definition submitAlice' : Event :=
  EvRequest (mkRequest POST "/attendance" alice)
    (mkOracle "7d1f0c9a-2b3e-4f5a-8c6d-0e9f8a7b6c5d" (nineOClock + 2000)
       (nineOClock + 2000)).

Definition afterOddAndAlice : World :=
  Eval vm_compute in
    fst (step parseISO submitAlice'
           (fst (step parseISO (EvCleanup (nineOClock + 1000)) afterOdd))).

Definition aliceCall : WebhookCall :=
  mkCall "https://sanchit2007.app.n8n.cloud/webhook/login" "POST" webhookHeaders
    (VObj [ ("name", VStr "Alice");
            ("department", VStr "Eng");
            ("date", VStr "2024-01-01");
            ("time", VStr "09:00");
            ("action", VStr "login");
            ("jobId", VStr aliceId);
            ("timestamp", VStr "2024-01-01T09:00:00.000Z") ])
    30000.

(** * Properties *)

(** ** The date functions on examples *)

Example toISOString_epoch : toISOString 0 = "1970-01-01T00:00:00.000Z".
Proof. reflexivity. Qed.

Example toISOString_2024 :
  toISOString 1704099600123 = "2024-01-01T09:00:00.123Z".
Proof. reflexivity. Qed.

Example toISOString_leap_day :
  toISOString 1709251199999 = "2024-02-29T23:59:59.999Z".
Proof. reflexivity. Qed.

Example parseISO_toISOString_2024 :
  parseISO (toISOString 1704099600123) = Some 1704099600123.
Proof. reflexivity. Qed.

Example parseISO_garbage : parseISO "yesterday" = None.
Proof. reflexivity. Qed.

(** ** Tables *)

Section AssocFacts.
Context {A : Type}.
Implicit Types (o : list (string * A)) (k : string) (v : A).

Lemma assoc_get_None k o : assoc_get k o = None <-> ~ In k (assoc_keys o).
Proof.
  induction o as [|[k' v'] r IH]; simpl.
  - tauto.
  - destruct (String.eqb_spec k k') as [->|Hne].
    + split; [discriminate | intros H; exfalso; apply H; now left].
    + rewrite IH. split.
      * intros H [Heq|Hin]; [congruence | tauto].
      * intros H Hin. apply H. now right.
Qed.

Lemma assoc_get_Some_In k v o : assoc_get k o = Some v -> In (k, v) o.
Proof.
  induction o as [|[k' v'] r IH]; simpl; [discriminate|].
  destruct (String.eqb_spec k k') as [->|Hne].
  - intros [= ->]. now left.
  - intros H. right. now apply IH.
Qed.

Lemma assoc_get_Some_key k v o : assoc_get k o = Some v -> In k (assoc_keys o).
Proof.
  intros H. apply assoc_get_Some_In in H.
  apply (in_map fst) in H. exact H.
Qed.

Lemma In_assoc_get k v o :
  NoDup (assoc_keys o) -> In (k, v) o -> assoc_get k o = Some v.
Proof.
  induction o as [|[k' v'] r IH]; simpl; [tauto|].
  intros Hnd [Heq|Hin].
  - inversion Heq; subst. now rewrite String.eqb_refl.
  - inversion Hnd as [|? ? Hnotin Hnd']; subst.
    destruct (String.eqb_spec k k') as [->|Hne].
    + exfalso. apply Hnotin. apply (in_map fst) in Hin. exact Hin.
    + now apply IH.
Qed.

Lemma assoc_get_set_eq k v o : assoc_get k (assoc_set k v o) = Some v.
Proof.
  induction o as [|[k' v'] r IH]; simpl.
  - now rewrite String.eqb_refl.
  - destruct (String.eqb_spec k k') as [->|Hne]; simpl.
    + now rewrite String.eqb_refl.
    + destruct (String.eqb_spec k k'); [contradiction | exact IH].
Qed.

Lemma assoc_get_set_ne k k' v o :
  k <> k' -> assoc_get k' (assoc_set k v o) = assoc_get k' o.
Proof.
  intros Hne. induction o as [|[k0 v0] r IH]; simpl.
  - destruct (String.eqb_spec k' k); [congruence | reflexivity].
  - destruct (String.eqb_spec k k0) as [->|Hne0]; simpl.
    + destruct (String.eqb_spec k' k0); [congruence | reflexivity].
    + destruct (String.eqb_spec k' k0); [reflexivity | exact IH].
Qed.

Lemma assoc_set_keys_present k v o :
  In k (assoc_keys o) -> assoc_keys (assoc_set k v o) = assoc_keys o.
Proof.
  induction o as [|[k0 v0] r IH]; simpl; [tauto|].
  intros Hin. destruct (String.eqb_spec k k0) as [->|Hne]; simpl.
  - reflexivity.
  - f_equal. apply IH. destruct Hin; [congruence | assumption].
Qed.

Lemma assoc_set_absent k v o :
  ~ In k (assoc_keys o) -> assoc_set k v o = (o ++ [(k, v)])%list.
Proof.
  induction o as [|[k0 v0] r IH]; simpl; [reflexivity|].
  intros Hnotin. destruct (String.eqb_spec k k0) as [->|Hne].
  - exfalso. apply Hnotin. now left.
  - f_equal. apply IH. tauto.
Qed.

Lemma assoc_set_NoDup k v o :
  NoDup (assoc_keys o) -> NoDup (assoc_keys (assoc_set k v o)).
Proof.
  intros Hnd. destruct (in_dec string_dec k (assoc_keys o)) as [Hin|Hnotin].
  - now rewrite assoc_set_keys_present.
  - rewrite assoc_set_absent by assumption.
    unfold assoc_keys. rewrite map_app. simpl.
    apply NoDup_app; [exact Hnd | repeat constructor; simpl; tauto |].
    intros a Ha [<-|[]]. contradiction.
Qed.

Lemma assoc_set_keys_In k k' v o :
  In k' (assoc_keys (assoc_set k v o)) <-> k' = k \/ In k' (assoc_keys o).
Proof.
  induction o as [|[k0 v0] r IH]; simpl.
  - intuition congruence.
  - destruct (String.eqb_spec k k0) as [->|Hne]; simpl.
    + intuition congruence.
    + rewrite IH. intuition congruence.
Qed.

Lemma assoc_del_filter k o :
  assoc_del k o = filter (fun e => negb (fst e =? k)%string) o.
Proof.
  induction o as [|[k0 v0] r IH]; simpl; [reflexivity|].
  rewrite (String.eqb_sym k0 k).
  destruct (k =? k0)%string; simpl; now rewrite IH.
Qed.

Lemma filter_keys_NoDup (f : string * A -> bool) o :
  NoDup (assoc_keys o) -> NoDup (assoc_keys (filter f o)).
Proof.
  induction o as [|e r IH]; simpl; [trivial|].
  intros Hnd. inversion Hnd as [|? ? Hnotin Hnd']; subst.
  destruct (f e); simpl; [|now apply IH].
  constructor; [|now apply IH].
  intros Hin. apply Hnotin. unfold assoc_keys in *.
  apply in_map_iff in Hin. destruct Hin as [x [Hx Hin]].
  apply filter_In in Hin. apply in_map_iff. exists x. tauto.
Qed.

Lemma assoc_get_filter (f : string * A -> bool) k o :
  NoDup (assoc_keys o) ->
  assoc_get k (filter f o) =
  match assoc_get k o with
  | Some v => if f (k, v) then Some v else None
  | None => None
  end.
Proof.
  induction o as [|[k0 v0] r IH]; simpl; [reflexivity|].
  intros Hnd. inversion Hnd as [|? ? Hnotin Hnd']; subst.
  destruct (String.eqb_spec k k0) as [->|Hne].
  - destruct (f (k0, v0)) eqn:Hf; simpl.
    + now rewrite String.eqb_refl.
    + rewrite IH by assumption.
      apply assoc_get_None in Hnotin. now rewrite Hnotin.
  - destruct (f (k0, v0)); simpl.
    + destruct (String.eqb_spec k k0); [contradiction | now apply IH].
    + now apply IH.
Qed.

End AssocFacts.

(** ** Lists *)

Lemma filter_all {A : Type} (f : A -> bool) (l : list A) :
  (forall x, In x l -> f x = true) -> filter f l = l.
Proof.
  induction l as [|a r IH]; simpl; [reflexivity|].
  intros H. rewrite (H a) by now left.
  f_equal. apply IH. intros x Hx. apply H. now right.
Qed.

Lemma filter_twice {A : Type} (f g : A -> bool) (l : list A) :
  filter f (filter g l) = filter (fun x => g x && f x) l.
Proof.
  induction l as [|a r IH]; simpl; [reflexivity|].
  destruct (g a); simpl; [destruct (f a)|]; now rewrite IH.
Qed.

(** ** The sweep *)

Section Sweep.
Variable dateParse : string -> option Z.

Let due (cutoff : Z) (ks : list string) (e : string * Job) : bool :=
  negb (existsb (String.eqb (fst e)) ks && expired dateParse cutoff (snd e)).

Lemma forEachKey_cleanupJob cutoff ks :
  forall js,
    NoDup ks -> incl ks (assoc_keys js) -> NoDup (assoc_keys js) ->
    forEachKey (cleanupJob dateParse cutoff) ks js = Ok (filter (due cutoff ks) js).
Proof.
  induction ks as [|k rest IH]; intros js Hks Hincl Hnd; simpl.
  - f_equal. symmetry. apply filter_all. reflexivity.
  - inversion Hks as [|? ? Hk Hrest]; subst.
    assert (Hin : In k (assoc_keys js)) by (apply Hincl; now left).
    unfold cleanupJob at 1.
    destruct (assoc_get k js) as [job|] eqn:Hget;
      [|apply assoc_get_None in Hget; contradiction].
    assert (Hval : forall k0 v0, In (k0, v0) js -> k0 = k -> v0 = job).
    { intros k0 v0 Hi ->. apply (In_assoc_get _ _ _ Hnd) in Hi. congruence. }
    assert (Hkeep :
      expired dateParse cutoff job = false ->
      forEachKey (cleanupJob dateParse cutoff) rest js
      = Ok (filter (due cutoff (k :: rest)) js)).
    { intros Hexp. rewrite IH; trivial.
      - f_equal. apply filter_ext_in. intros [k0 v0] Hi. unfold due. simpl.
        destruct (String.eqb_spec k0 k) as [->|Hne]; simpl; [|reflexivity].
        rewrite (Hval k v0 Hi eq_refl), Hexp.
        now rewrite !andb_false_r.
      - intros x Hx. apply Hincl. now right. }
    destruct (dateParse (timestamp job)) as [t|] eqn:Hparse; simpl.
    + destruct (t <? cutoff) eqn:Hlt; simpl.
      * rewrite assoc_del_filter, IH; trivial.
        -- f_equal. rewrite filter_twice. apply filter_ext_in.
           intros [k0 v0] Hi. unfold due. simpl.
           destruct (String.eqb_spec k0 k) as [->|Hne]; simpl; [|reflexivity].
           rewrite (Hval k v0 Hi eq_refl). unfold expired.
           now rewrite Hparse, Hlt.
        -- intros x Hx.
           assert (Hxin : In x (assoc_keys js)) by (apply Hincl; now right).
           unfold assoc_keys in *. apply in_map_iff in Hxin.
           destruct Hxin as [[k0 v0] [Hfst Hi]]. simpl in Hfst. subst k0.
           apply in_map_iff. exists (x, v0). split; [reflexivity|].
           apply filter_In. split; [exact Hi|]. simpl.
           destruct (String.eqb_spec x k) as [->|]; [contradiction | reflexivity].
        -- now apply filter_keys_NoDup.
      * apply Hkeep. unfold expired. now rewrite Hparse.
    + apply Hkeep. unfold expired. now rewrite Hparse.
Qed.

(** The sweep keeps exactly the records that are not due, in their order,
    and does not throw. *)
Lemma cleanupOldJobs_filter now js :
  NoDup (assoc_keys js) ->
  cleanupOldJobs dateParse now js
  = Ok (filter (fun e => negb (expired dateParse (now - 3600000) (snd e))) js).
Proof.
  intros Hnd. unfold cleanupOldJobs.
  change (now - 60 * 60 * 1000) with (now - 3600000).
  rewrite forEachKey_cleanupJob; trivial.
  - f_equal. apply filter_ext_in. intros [k0 v0] Hi. unfold due. simpl.
    replace (existsb (String.eqb k0) (assoc_keys js)) with true; [reflexivity|].
    symmetry. apply existsb_exists. exists k0. split.
    + apply (in_map fst) in Hi. exact Hi.
    + apply String.eqb_refl.
  - apply incl_refl.
Qed.

(** C6. One run of the sweep, on a table with distinct keys, does not
    throw; afterwards a record whose timestamp is a valid date strictly
    before now minus one hour is absent, whatever its status, and every
    other record (a timestamp not before the cutoff, or a timestamp that
    is not a valid date) is still there, unchanged; no record appears. *)
Theorem cleanupOldJobs_evicts_exactly_the_old now js :
  NoDup (assoc_keys js) ->
  exists js',
    cleanupOldJobs dateParse now js = Ok js' /\
    (forall jobId job,
        assoc_get jobId js = Some job ->
        match dateParse (timestamp job) with
        | Some jobTime =>
            if jobTime <? now - 3600000
            then assoc_get jobId js' = None
            else assoc_get jobId js' = Some job
        | None => assoc_get jobId js' = Some job
        end) /\
    (forall jobId, assoc_get jobId js = None -> assoc_get jobId js' = None).
Proof.
  intros Hnd. eexists. split; [now apply cleanupOldJobs_filter|]. split.
  - intros jobId job Hget. pose proof (assoc_get_filter
      (fun e => negb (expired dateParse (now - 3600000) (snd e))) jobId js Hnd) as H.
    rewrite Hget in H. simpl in H. unfold expired in H.
    destruct (dateParse (timestamp job)) as [t|]; simpl in H; [|exact H].
    destruct (t <? now - 3600000); exact H.
  - intros jobId Hget. rewrite assoc_get_filter by assumption. now rewrite Hget.
Qed.

End Sweep.

(** ** Subsequences *)

Section Subseq.
Context {A : Type}.
Implicit Types l m : list A.

Lemma subseq_refl l : subseq l l.
Proof. induction l; constructor; assumption. Qed.

Lemma subseq_filter (f : A -> bool) l : subseq (filter f l) l.
Proof.
  induction l as [|a r IH]; simpl; [constructor|].
  destruct (f a); constructor; assumption.
Qed.

Lemma subseq_trans l m n : subseq l m -> subseq m n -> subseq l n.
Proof.
  intros Hlm Hmn. revert l Hlm.
  induction Hmn as [|x m n Hmn IH|x m n Hmn IH]; intros l Hlm.
  - exact Hlm.
  - constructor. now apply IH.
  - inversion Hlm; subst.
    + apply subseq_skip. now apply IH.
    + apply subseq_keep. now apply IH.
Qed.

Lemma subseq_snoc l m x : subseq l m -> subseq (l ++ [x]) (m ++ [x]).
Proof.
  induction 1; simpl; repeat constructor; assumption.
Qed.



End Subseq.

Lemma subseq_map {A B : Type} (g : A -> B) (l m : list A) :
  subseq l m -> subseq (map g l) (map g m).
Proof. induction 1; simpl; constructor; assumption. Qed.

(** ** Invariants of the reachable states *)

Lemma assoc_set_set {A : Type} k (v1 v2 : A) o :
  assoc_set k v2 (assoc_set k v1 o) = assoc_set k v2 o.
Proof.
  induction o as [|[k0 v0] r IH]; simpl.
  - now rewrite String.eqb_refl.
  - destruct (String.eqb_spec k k0) as [->|Hne]; simpl.
    + now rewrite String.eqb_refl.
    + destruct (String.eqb_spec k k0); [contradiction | now rewrite IH].
Qed.

Lemma job_assign_present jobId f js j :
  assoc_get jobId js = Some j ->
  job_assign jobId f js = Ok (assoc_set jobId (f j) js).
Proof. intros H. unfold job_assign. now rewrite H. Qed.

Lemma job_assign_absent jobId f js :
  assoc_get jobId js = None -> job_assign jobId f js = Throw cannotSet.
Proof. intros H. unfold job_assign. now rewrite H. Qed.

(** The [catch] block on a record that is there: both assignments land. *)
Lemma forwarderCatch_present jobId message w j :
  assoc_get jobId (jobs w) = Some j ->
  forwarderCatch jobId message w
  = with_jobs (assoc_set jobId (setError message (setStatus failed j)) (jobs w)) w.
Proof.
  intros H. unfold forwarderCatch.
  rewrite (job_assign_present _ _ _ _ H). simpl.
  rewrite (job_assign_present _ _ _ (setStatus failed j))
    by apply assoc_get_set_eq.
  now rewrite assoc_set_set.
Qed.

(** The [catch] block on a record that is gone: the error leaves the task. *)
Lemma forwarderCatch_absent jobId message w :
  assoc_get jobId (jobs w) = None ->
  forwarderCatch jobId message w
  = mkWorld (jobs w) (tasks w) (issued w) (outbox w)
      (unhandled w ++ [(jobId, cannotSet)]).
Proof.
  intros H. unfold forwarderCatch. now rewrite (job_assign_absent _ _ _ H).
Qed.

Lemma evolves_refl a : evolves a a.
Proof. destruct a; simpl; auto. Qed.

Lemma evolves_trans a b c : evolves a b -> evolves b c -> evolves a c.
Proof.
  destruct a as [ja|], b as [jb|], c as [jc|]; simpl; try tauto.
  intros [H1|H1] [H2|H2]; [left | right | right | right]; congruence.
Qed.

Lemma follows_refl w : Inv w -> follows w w.
Proof.
  intros H. split; [exact H|]. split; [apply incl_refl|].
  intros id _. apply evolves_refl.
Qed.

Lemma follows_trans w1 w2 w3 : follows w1 w2 -> follows w2 w3 -> follows w1 w3.
Proof.
  intros [_ [Hi1 He1]] [Hinv [Hi2 He2]]. split; [exact Hinv|]. split.
  - eapply incl_tran; eassumption.
  - intros id Hid. eapply evolves_trans; [now apply He1|].
    apply He2. now apply Hi1.
Qed.

Lemma Inv_initial : Inv initial.
Proof.
  constructor; simpl; try constructor; try tauto; discriminate.
Qed.

(** Changing only the suspended tasks, to tasks of jobs that had one. *)
Lemma follows_tasks w ts ob uh :
  Inv w ->
  NoDup (map fst ts) ->
  (forall id, In id (map fst ts) -> In id (task_ids w)) ->
  follows w (mkWorld (jobs w) ts (issued w) ob uh).
Proof.
  intros [H1 H2 H3 H4 H5 H6 H7] Hnd Hsub. split; [|split].
  - constructor; unfold task_ids; simpl; auto.
    intros id j Hid Hg. apply (H5 id j); auto.
  - apply incl_refl.
  - intros id _. apply evolves_refl.
Qed.

(** A terminal write into the record of a job whose task just ended. *)
Lemma follows_write w jobId j j' ts ob uh :
  Inv w ->
  assoc_get jobId (jobs w) = Some j ->
  status j = processing ->
  job_ok j' ->
  NoDup (map fst ts) ->
  (forall id, In id (map fst ts) -> In id (task_ids w) /\ id <> jobId) ->
  follows w (mkWorld (assoc_set jobId j' (jobs w)) ts (issued w) ob uh).
Proof.
  intros [H1 H2 H3 H4 H5 H6 H7] Hget Hst Hok Hnd Hsub.
  assert (Hkey : In jobId (assoc_keys (jobs w)))
    by (eapply assoc_get_Some_key; eassumption).
  split; [|split].
  - constructor; unfold task_ids; simpl.
    + now apply assoc_set_NoDup.
    + intros id Hid. apply assoc_set_keys_In in Hid.
      destruct Hid as [->|Hid]; auto.
    + exact Hnd.
    + intros id Hid. apply H4. now apply Hsub.
    + intros id j0 Hid Hg. destruct (Hsub id Hid) as [Hin Hne].
      rewrite assoc_get_set_ne in Hg by congruence. eapply H5; eassumption.
    + intros id j0 Hg. destruct (string_dec jobId id) as [<-|Hne].
      * rewrite assoc_get_set_eq in Hg. congruence.
      * rewrite assoc_get_set_ne in Hg by assumption. eapply H6; eassumption.
    + now rewrite assoc_set_keys_present.
  - apply incl_refl.
  - intros id _. simpl. destruct (string_dec jobId id) as [<-|Hne].
    + rewrite assoc_get_set_eq, Hget. simpl. now right.
    + rewrite assoc_get_set_ne by assumption. apply evolves_refl.
Qed.

(** A new record under an identifier that was never issued, with or
    without a task suspended on it. *)
Lemma follows_insert w jobId j ts ob uh :
  Inv w ->
  ~ In jobId (issued w) ->
  job_ok j ->
  ts = tasks w \/ (ts = (tasks w ++ [(jobId, AwaitFetch)])%list /\ status j = processing) ->
  follows w (mkWorld (assoc_set jobId j (jobs w)) ts (issued w ++ [jobId]) ob uh).
Proof.
  intros [H1 H2 H3 H4 H5 H6 H7] Hfresh Hok Hts.
  assert (Hnokey : ~ In jobId (assoc_keys (jobs w))) by (intros H; auto).
  assert (Hnotask : ~ In jobId (task_ids w)) by (intros H; auto).
  split; [|split].
  - constructor; unfold task_ids; simpl.
    + now apply assoc_set_NoDup.
    + intros id Hid. apply assoc_set_keys_In in Hid. apply in_or_app.
      destruct Hid as [->|Hid]; [right; now left | left; auto].
    + destruct Hts as [->|[-> _]]; [exact H3|].
      rewrite map_app. simpl. apply NoDup_app; [exact H3 | repeat constructor; simpl; tauto|].
      intros a Ha [<-|[]]. contradiction.
    + intros id Hid. apply in_or_app.
      destruct Hts as [->|[-> _]]; [left; auto|].
      rewrite map_app in Hid. apply in_app_or in Hid.
      destruct Hid as [Hid|[<-|[]]]; [left; auto | right; now left].
    + intros id j0 Hid Hg. destruct (string_dec jobId id) as [<-|Hne].
      * rewrite assoc_get_set_eq in Hg. injection Hg as <-.
        destruct Hts as [->|[-> Hst]]; [contradiction | exact Hst].
      * rewrite assoc_get_set_ne in Hg by assumption.
        apply (H5 id j0); [|exact Hg].
        destruct Hts as [->|[-> _]]; [exact Hid|].
        rewrite map_app in Hid. apply in_app_or in Hid.
        destruct Hid as [Hid|[Heq|[]]]; [exact Hid | simpl in Heq; congruence].
    + intros id j0 Hg. destruct (string_dec jobId id) as [<-|Hne].
      * rewrite assoc_get_set_eq in Hg. congruence.
      * rewrite assoc_get_set_ne in Hg by assumption. eapply H6; eassumption.
    + rewrite assoc_set_absent by assumption. unfold assoc_keys.
      rewrite map_app. simpl. now apply subseq_snoc.
  - apply incl_appl, incl_refl.
  - intros id Hid. simpl.
    assert (Hne : jobId <> id) by congruence.
    rewrite assoc_get_set_ne by assumption. apply evolves_refl.
Qed.

Lemma task_eqb_true jobId ph t : task_eqb jobId ph t = true <-> t = (jobId, ph).
Proof.
  destruct t as [k p]. unfold task_eqb. simpl. split.
  - intros H. apply andb_prop in H. destruct H as [H1 H2].
    apply String.eqb_eq in H1. subst k.
    destruct p, ph; simpl in H2; congruence.
  - intros [= -> ->]. rewrite String.eqb_refl. now destruct ph.
Qed.

Lemma has_task_In jobId ph w :
  has_task jobId ph w = true <-> In (jobId, ph) (tasks w).
Proof.
  unfold has_task. rewrite existsb_exists. split.
  - intros [t [Hin Heq]]. apply task_eqb_true in Heq. now subst t.
  - intros Hin. exists (jobId, ph). split; [exact Hin | now apply task_eqb_true].
Qed.

(** Ending the task of a job leaves no task of that job. *)
Lemma drop_task_ids jobId ph w :
  NoDup (task_ids w) ->
  In (jobId, ph) (tasks w) ->
  NoDup (map fst (tasks (drop_task jobId ph w))) /\
  (forall id, In id (map fst (tasks (drop_task jobId ph w))) ->
              In id (task_ids w) /\ id <> jobId).
Proof.
  intros Hnd Hin. unfold drop_task, task_ids in *. simpl. split.
  - now apply (filter_keys_NoDup (A := Phase)).
  - intros id Hid. apply in_map_iff in Hid. destruct Hid as [[k p] [Hk Ht]].
    simpl in Hk. subst k. apply filter_In in Ht. destruct Ht as [Ht Hneq].
    split; [apply (in_map fst) in Ht; exact Ht|].
    intros ->. apply (In_assoc_get _ _ _ Hnd) in Ht, Hin.
    assert (p = ph) by congruence. subst p.
    assert (Htrue : task_eqb jobId ph (jobId, ph) = true) by now apply task_eqb_true.
    rewrite Htrue in Hneq. discriminate.
Qed.

Lemma job_ok_failed j message :
  job_ok j -> status j = processing ->
  job_ok (setError message (setStatus failed j)).
Proof.
  intros [Hname Hst] Hp. rewrite Hp in Hst. split; simpl; [exact Hname|].
  split; [discriminate | tauto].
Qed.

Lemma job_ok_success j v :
  job_ok j -> status j = processing ->
  job_ok (setN8nResponse v (setStatus success j)).
Proof.
  intros [Hname Hst] Hp. rewrite Hp in Hst. split; simpl; [exact Hname|].
  split; [tauto | discriminate].
Qed.

(** The [catch] block at the end of the task of [jobId]. *)
Lemma forwarderCatch_follows w jobId message ts :
  Inv w ->
  In jobId (task_ids w) ->
  NoDup (map fst ts) ->
  (forall id, In id (map fst ts) -> In id (task_ids w) /\ id <> jobId) ->
  follows w (forwarderCatch jobId message (with_tasks ts w)).
Proof.
  intros Hinv Htask Hnd Hsub.
  destruct (assoc_get jobId (jobs w)) as [j|] eqn:Hget.
  - rewrite (forwarderCatch_present _ _ _ j) by exact Hget.
    unfold with_jobs, with_tasks. simpl.
    apply follows_write with (j := j); trivial.
    + eapply (inv_tasks_processing w Hinv); eassumption.
    + apply job_ok_failed.
      * eapply (inv_jobs_ok w Hinv); eassumption.
      * eapply (inv_tasks_processing w Hinv); eassumption.
  - rewrite forwarderCatch_absent by exact Hget. simpl.
    apply follows_tasks; trivial. intros id Hid. now apply Hsub.
Qed.

Lemma fetchSettled_follows w jobId r :
  Inv w -> has_task jobId AwaitFetch w = true ->
  follows w (fetchSettled jobId r w).
Proof.
  intros Hinv Hen. apply has_task_In in Hen.
  assert (Htask : In jobId (task_ids w)) by (apply (in_map fst) in Hen; exact Hen).
  destruct (drop_task_ids jobId AwaitFetch w (inv_tasks_distinct w Hinv) Hen)
    as [Hnd Hsub].
  unfold fetchSettled.
  change (drop_task jobId AwaitFetch w)
    with (with_tasks (tasks (drop_task jobId AwaitFetch w)) w) in *.
  set (ts := tasks (drop_task jobId AwaitFetch w)) in *.
  destruct r as [code|message].
  - destruct (response_ok code).
    + unfold with_tasks. simpl. apply follows_tasks; trivial.
      * rewrite map_app. simpl. apply NoDup_app; [exact Hnd | repeat constructor; simpl; tauto|].
        intros a Ha [<-|[]]. now apply Hsub in Ha.
      * intros id Hid. rewrite map_app in Hid. apply in_app_or in Hid.
        destruct Hid as [Hid|[<-|[]]]; [now apply Hsub | exact Htask].
    + now apply forwarderCatch_follows.
  - now apply forwarderCatch_follows.
Qed.

Lemma jsonSettled_follows w jobId r :
  Inv w -> has_task jobId AwaitJson w = true ->
  follows w (jsonSettled jobId r w).
Proof.
  intros Hinv Hen. apply has_task_In in Hen.
  assert (Htask : In jobId (task_ids w)) by (apply (in_map fst) in Hen; exact Hen).
  destruct (drop_task_ids jobId AwaitJson w (inv_tasks_distinct w Hinv) Hen)
    as [Hnd Hsub].
  unfold jsonSettled.
  change (drop_task jobId AwaitJson w)
    with (with_tasks (tasks (drop_task jobId AwaitJson w)) w) in *.
  set (ts := tasks (drop_task jobId AwaitJson w)) in *.
  set (n8n := match r with Parsed v => v | ParseFailed => _ end).
  change (jobs (with_tasks ts w)) with (jobs w).
  destruct (assoc_get jobId (jobs w)) as [j|] eqn:Hget.
  - rewrite (job_assign_present _ _ _ j) by exact Hget. simpl.
    rewrite (job_assign_present _ _ _ (setStatus success j))
      by apply assoc_get_set_eq.
    rewrite assoc_set_set. unfold with_jobs, with_tasks. simpl.
    apply follows_write with (j := j); trivial.
    + eapply (inv_tasks_processing w Hinv); eassumption.
    + apply job_ok_success.
      * eapply (inv_jobs_ok w Hinv); eassumption.
      * eapply (inv_tasks_processing w Hinv); eassumption.
  - rewrite job_assign_absent by exact Hget. simpl.
    now apply forwarderCatch_follows.
Qed.

Lemma forwarderStart_not_string jobId nm department date time act now w :
  (forall s, nm <> VStr s) ->
  forwarderStart jobId nm department date time act now w
  = forwarderCatch jobId "name.trim is not a function" w.
Proof. intros H. destruct nm; try reflexivity. now destruct (H s). Qed.

Lemma postAttendance_follows w b o :
  Inv w -> ~ In (o_uuid o) (issued w) ->
  follows w (fst (postAttendance b o w)).
Proof.
  intros Hinv Hfresh. unfold postAttendance.
  set (nm := obj_get "name" b).
  destruct (negb (truthy nm) || _ || _ || _ || _) eqn:Hval;
    [now apply follows_refl|].
  destruct (includesAction (obj_get "action" b)) as [a|];
    [|now apply follows_refl].
  assert (Hname : truthy nm = true).
  { repeat (apply orb_false_elim in Hval; destruct Hval as [Hval _]).
    now apply negb_false_iff in Hval. }
  set (job := mkJob processing a nm (toISOString (o_now1 o)) None None).
  assert (Hjob : job_ok job) by (split; simpl; auto).
  destruct (stringifies nm && _ && _ && _); simpl fst;
    [|apply follows_insert; trivial; now left].
  destruct nm as [| |x|x|s|x|x] eqn:Hnm;
    try (rewrite forwarderStart_not_string by (intros s; discriminate);
         rewrite (forwarderCatch_present _ _ _ job) by (simpl; apply assoc_get_set_eq);
         unfold with_jobs; simpl; rewrite assoc_set_set;
         apply follows_insert; trivial;
         [ now apply job_ok_failed | now left ]).
  unfold forwarderStart. apply follows_insert; trivial. right. now split.
Qed.

(** A request either leaves the state alone or runs the attendance
    handler, on its own body or on the body a legacy route completed. *)
Lemma handle_shape req o w :
  exists w' r,
    handle 2 req o w = Some (w', r) /\
    (w' = w \/ exists b, w' = fst (postAttendance b o w)).
Proof.
  assert (Hpost : forall b,
    exists w' r,
      Some (postAttendance b o w) = Some (w', r) /\
      (w' = w \/ exists b', w' = fst (postAttendance b' o w))).
  { intros b. exists (fst (postAttendance b o w)), (snd (postAttendance b o w)).
    split; [now rewrite <- surjective_pairing | right; now exists b]. }
  unfold handle.
  destruct (findRoute routes (method req) (url req)) as [[h params]|].
  - destruct h; try (eexists; eexists; split; [reflexivity | now left]);
      apply Hpost.
  - eexists; eexists; split; [reflexivity | now left].
Qed.

Lemma follows_filter w (f : string * Job -> bool) :
  Inv w -> follows w (with_jobs (filter f (jobs w)) w).
Proof.
  intros [H1 H2 H3 H4 H5 H6 H7].
  assert (Hsub : forall id j, assoc_get id (filter f (jobs w)) = Some j ->
                              assoc_get id (jobs w) = Some j).
  { intros id j. rewrite assoc_get_filter by assumption.
    destruct (assoc_get id (jobs w)) as [v|]; [|discriminate].
    destruct (f (id, v)); [trivial | discriminate]. }
  split; [|split].
  - constructor; unfold task_ids; simpl; auto.
    + now apply filter_keys_NoDup.
    + intros id Hid. apply H2. unfold assoc_keys in *.
      apply in_map_iff in Hid. destruct Hid as [x [Hx Hin]].
      apply filter_In in Hin. apply in_map_iff. exists x. tauto.
    + intros id j Hid Hg. apply (H5 id j); auto.
    + intros id j Hg. apply (H6 id j); auto.
    + eapply subseq_trans; [|exact H7].
      apply subseq_map, subseq_filter.
  - apply incl_refl.
  - intros id _. simpl. rewrite assoc_get_filter by assumption.
    destruct (assoc_get id (jobs w)) as [v|]; simpl; [|trivial].
    destruct (f (id, v)); simpl; auto.
Qed.

Section Reachable.
Variable dateParse : string -> option Z.

Lemma step_follows e w :
  Inv w -> enabled e w = true -> follows w (fst (step dateParse e w)).
Proof.
  intros Hinv Hen. destruct e as [req o|jobId r|jobId r|now];
    unfold step, enabled in *.
  - destruct (handle_shape req o w) as [w' [r [Hh Hcase]]].
    rewrite Hh. simpl. destruct Hcase as [->|[b ->]].
    + now apply follows_refl.
    + apply postAttendance_follows; [exact Hinv|].
      intros Hin. apply negb_true_iff in Hen.
      assert (Hex : existsb (String.eqb (o_uuid o)) (issued w) = true).
      { apply existsb_exists. exists (o_uuid o). split; [exact Hin|].
        apply String.eqb_refl. }
      congruence.
  - now apply fetchSettled_follows.
  - now apply jsonSettled_follows.
  - rewrite cleanupOldJobs_filter by apply (inv_keys_distinct w Hinv).
    simpl. now apply follows_filter.
Qed.

Lemma run_follows es :
  forall w w', Inv w -> run dateParse es w = Some w' -> follows w w'.
Proof.
  induction es as [|e rest IH]; intros w w' Hinv Hrun; simpl in Hrun.
  - injection Hrun as <-. now apply follows_refl.
  - destruct (enabled e w) eqn:Hen; [|discriminate].
    pose proof (step_follows e w Hinv Hen) as Hstep.
    eapply follows_trans; [exact Hstep|].
    apply IH; [apply Hstep | exact Hrun].
Qed.

Lemma run_Inv es w : run dateParse es initial = Some w -> Inv w.
Proof. intros H. apply (run_follows es initial w Inv_initial H). Qed.

Lemma run_issued es w id j :
  run dateParse es initial = Some w -> assoc_get id (jobs w) = Some j ->
  In id (issued w).
Proof.
  intros Hrun Hget. apply (inv_keys_issued w (run_Inv es w Hrun)).
  eapply assoc_get_Some_key; eassumption.
Qed.

(** C2. Between two states of a run, the status of the record under a job
    id either is the same or went from processing to success or to failed;
    and once it has changed it does not change again.  So no event moves
    a record back to processing or from one terminal status to the other.
    Events are those of a run: [uuidv4()] does not repeat an identifier. *)
Theorem status_moves_forward_at_most_once es1 es2 w1 w2 jobId j1 j2 :
  run dateParse es1 initial = Some w1 ->
  run dateParse es2 w1 = Some w2 ->
  assoc_get jobId (jobs w1) = Some j1 ->
  assoc_get jobId (jobs w2) = Some j2 ->
  (status j2 = status j1 \/
   (status j1 = processing /\ (status j2 = success \/ status j2 = failed))) /\
  (forall es3 w3 j3,
      run dateParse es3 w2 = Some w3 ->
      assoc_get jobId (jobs w3) = Some j3 ->
      status j2 <> status j1 ->
      status j3 = status j2).
Proof.
  intros Hr1 Hr2 Hg1 Hg2.
  pose proof (run_Inv es1 w1 Hr1) as Hinv1.
  pose proof (run_follows es2 w1 w2 Hinv1 Hr2) as [Hinv2 [Hincl2 Hev2]].
  pose proof (run_issued es1 w1 jobId j1 Hr1 Hg1) as Hiss.
  pose proof (Hev2 jobId Hiss) as Hev. rewrite Hg1, Hg2 in Hev. simpl in Hev.
  split.
  - destruct Hev as [Hev|Hev]; [now left|].
    destruct (status j2) eqn:Hs2; [left; congruence | right | right]; auto.
  - intros es3 w3 j3 Hr3 Hg3 Hchanged.
    pose proof (run_follows es3 w2 w3 Hinv2 Hr3) as [_ [_ Hev3]].
    pose proof (Hev3 jobId (Hincl2 jobId Hiss)) as Hev'.
    rewrite Hg2, Hg3 in Hev'. simpl in Hev'.
    destruct Hev as [Hev|Hev]; [congruence|].
    destruct Hev' as [Hev'|Hev']; [exact Hev' | congruence].
Qed.

(** C7. In every state of a run, a record with neither [error] nor
    [n8nResponse] has status processing, a failed record has an [error]
    and a successful record has an [n8nResponse]; and when the body of a
    successful response does not parse, the record of the job, if it is
    still there, becomes successful with [n8nResponse] the object
    [{status: "success"}]. *)
Theorem optional_properties_follow_status es w jobId j :
  run dateParse es initial = Some w ->
  assoc_get jobId (jobs w) = Some j ->
  (error j = None -> n8nResponse j = None -> status j = processing) /\
  (status j = failed -> exists m, error j = Some m) /\
  (status j = success -> exists v, n8nResponse j = Some v) /\
  (has_task jobId AwaitJson w = true ->
   assoc_get jobId (jobs (fst (step dateParse (EvJsonSettled jobId ParseFailed) w)))
   = Some (mkJob success (action j) (name j) (timestamp j) None
             (Some (VObj [("status", VStr "success")])))).
Proof.
  intros Hrun Hget.
  pose proof (run_Inv es w Hrun) as Hinv.
  destruct (inv_jobs_ok w Hinv jobId j Hget) as [_ Hst].
  repeat split.
  - intros He Hn. destruct (status j); trivial; destruct Hst; contradiction.
  - intros Hf. rewrite Hf in Hst. destruct (error j) as [m|]; [now exists m | now destruct Hst].
  - intros Hs. rewrite Hs in Hst.
    destruct (n8nResponse j) as [v|]; [now exists v | now destruct Hst].
  - intros Htask. apply has_task_In in Htask. apply (in_map fst) in Htask.
    pose proof (inv_tasks_processing w Hinv jobId j Htask Hget) as Hp.
    rewrite Hp in Hst. destruct Hst as [He Hn].
    simpl. unfold jsonSettled.
    change (jobs (drop_task jobId AwaitJson w)) with (jobs w).
    rewrite (job_assign_present _ _ _ j) by exact Hget. simpl.
    rewrite (job_assign_present _ _ _ (setStatus success j))
      by apply assoc_get_set_eq.
    simpl. rewrite assoc_get_set_eq. unfold setN8nResponse, setStatus. simpl.
    now rewrite He.
Qed.

(** C10. For a job id that is in the table of a state of a run, the
    answer of [/status/:jobId] is 200 with an object of the six keys
    status, action, name, timestamp, error and n8nResponse, in which
    [error] is null when the record has no [error] and [n8nResponse] is
    null when the record has no [n8nResponse]; for a record that is still
    processing both are null. *)
Theorem getStatus_six_keys es w jobId j :
  run dateParse es initial = Some w ->
  assoc_get jobId (jobs w) = Some j ->
  exists e r,
    getStatus jobId w
    = mkResponse 200
        (VObj [ ("status", VStr (status_string (status j)));
                ("action", VStr (action j));
                ("name", toJSON (name j));
                ("timestamp", VStr (timestamp j));
                ("error", e);
                ("n8nResponse", r) ]) /\
    (error j = None -> e = VNull) /\
    (n8nResponse j = None -> r = VNull) /\
    (status j = processing -> e = VNull /\ r = VNull).
Proof.
  intros Hrun Hget.
  pose proof (run_Inv es w Hrun) as Hinv.
  destruct (inv_jobs_ok w Hinv jobId j Hget) as [Hname Hst].
  unfold getStatus. rewrite Hget. unfold res_json, js_or.
  destruct j as [st ac nm ts er nr]. simpl in *.
  assert (Hproc : st = processing -> er = None /\ nr = None)
    by (intros ->; exact Hst).
  clear Hst.
  destruct nm as [| |b|n|s|xs|kvs]; try discriminate;
    (destruct er as [m|]; simpl;
     [destruct (m =? "")%string; simpl|]);
    (destruct nr as [[| |b'|n'|s'|xs'|kvs']|]; simpl;
     try destruct b'; try destruct (n' =? 0); try destruct (s' =? "")%string;
     simpl);
    (eexists; eexists; split; [reflexivity|]);
    (split; [intros; congruence|]);
    (split; [intros; congruence|]);
    (intros Hp; destruct (Hproc Hp); split; congruence).
Qed.

End Reachable.

(** ** The attendance handler *)

Lemma handle_attendance n b o w :
  handle (S n) (mkRequest POST "/attendance" b) o w = Some (postAttendance b o w).
Proof. reflexivity. Qed.

Lemma includesAction_Some v a :
  includesAction v = Some a -> v = VStr a /\ (a = "login" \/ a = "logout").
Proof.
  destruct v; simpl; try discriminate.
  destruct (String.eqb_spec s "login") as [->|_]; simpl.
  - intros [= <-]. auto.
  - destruct (String.eqb_spec s "logout") as [->|_]; simpl; [|discriminate].
    intros [= <-]. auto.
Qed.

(** C4, as the code has it.  A submission in which one of the five fields
    is missing, or in which [action] is neither 'login' nor 'logout', is
    answered 400 with one of the two error objects, and the state is the
    one before: no record, no forwarding task, no outbound call.  The
    error is the one about the action exactly when all five fields are
    truthy; a field that is missing or falsy, [action] included, gives the
    one about missing fields. *)
Theorem invalid_submission_is_rejected n b o w :
  (obj_get "name" b = VUndef \/ obj_get "department" b = VUndef \/
   obj_get "date" b = VUndef \/ obj_get "time" b = VUndef \/
   obj_get "action" b = VUndef) \/
  (obj_get "action" b <> VStr "login" /\ obj_get "action" b <> VStr "logout") ->
  exists r,
    handle (S n) (mkRequest POST "/attendance" b) o w = Some (w, r) /\
    code r = 400 /\
    body r =
      (if truthy (obj_get "name" b) && truthy (obj_get "department" b)
          && truthy (obj_get "date" b) && truthy (obj_get "time" b)
          && truthy (obj_get "action" b)
       then badAction else missingFields).
Proof.
  intros H. rewrite handle_attendance. unfold postAttendance.
  destruct (truthy (obj_get "name" b)) eqn:H1; simpl;
    [|eexists; split; [reflexivity | split; reflexivity]].
  destruct (truthy (obj_get "department" b)) eqn:H2; simpl;
    [|eexists; split; [reflexivity | split; reflexivity]].
  destruct (truthy (obj_get "date" b)) eqn:H3; simpl;
    [|eexists; split; [reflexivity | split; reflexivity]].
  destruct (truthy (obj_get "time" b)) eqn:H4; simpl;
    [|eexists; split; [reflexivity | split; reflexivity]].
  destruct (truthy (obj_get "action" b)) eqn:H5; simpl;
    [|eexists; split; [reflexivity | split; reflexivity]].
  destruct (includesAction (obj_get "action" b)) as [a|] eqn:Ha;
    [|eexists; split; [reflexivity | split; reflexivity]].
  exfalso. apply includesAction_Some in Ha. destruct Ha as [Hv Hor].
  destruct H as [H|[Hl Ho]].
  - repeat (destruct H as [H|H]; [rewrite H in *; discriminate|]).
    rewrite H in *. discriminate.
  - rewrite Hv in Hl, Ho. destruct Hor as [-> | ->]; contradiction.
Qed.

(** C4 as stated fails: with all five fields there and [action] the empty
    string, which is neither 'login' nor 'logout', the error is the one
    about missing fields, not the one about the action. *)
Lemma empty_action_is_reported_as_missing :
  obj_get "action" aliceEmptyAction <> VStr "login" /\
  obj_get "action" aliceEmptyAction <> VStr "logout" /\
  obj_get "action" aliceEmptyAction <> VUndef /\
  exists r,
    handle 1 (mkRequest POST "/attendance" aliceEmptyAction)
      (mkOracle aliceId nineOClock nineOClock) initial = Some (initial, r) /\
    code r = 400 /\
    body r = missingFields /\
    body r <> badAction.
Proof.
  repeat split; try discriminate.
  eexists. repeat split; try reflexivity. discriminate.
Qed.

(** C8, as the code has it.  For a valid submission, a payload the
    forwarding task sends has the trimmed name, the department, date, time
    and action of the body, the job id, and the timestamp of a second
    reading of the clock, while the record has the timestamp of the first;
    the task sends at most one, and it sends one when the name is a string
    and the fields can be written to the log. *)
Theorem webhook_payload_of_valid_submission b o w :
  validSubmission b = true ->
  let w' := fst (postAttendance b o w) in
  (exists j, assoc_get (o_uuid o) (jobs w') = Some j /\
             timestamp j = toISOString (o_now1 o)) /\
  exists calls,
    outbox w' = (outbox w ++ calls)%list /\
    (length calls <= 1)%nat /\
    (forall c, In c calls ->
       exists s act,
         obj_get "name" b = VStr s /\
         obj_get "action" b = VStr act /\
         c = mkCall (webhookUrl act) "POST" webhookHeaders
               (VObj [ ("name", VStr (trim s));
                       ("department", obj_get "department" b);
                       ("date", obj_get "date" b);
                       ("time", obj_get "time" b);
                       ("action", obj_get "action" b);
                       ("jobId", VStr (o_uuid o));
                       ("timestamp", VStr (toISOString (o_now2 o))) ])
               30000) /\
    (forall s, obj_get "name" b = VStr s -> loggable b = true ->
               length calls = 1%nat).
Proof.
  unfold validSubmission, postAttendance, loggable. intros Hv.
  repeat (apply andb_prop in Hv; destruct Hv as [Hv ?]).
  repeat match goal with H : truthy _ = true |- _ => rewrite H; clear H end.
  simpl orb. cbv iota.
  destruct (includesAction (obj_get "action" b)) as [a|] eqn:Ha; [|discriminate].
  apply includesAction_Some in Ha. destruct Ha as [Hact _].
  set (job := mkJob processing a (obj_get "name" b) (toISOString (o_now1 o)) None None).
  destruct (stringifies (obj_get "name" b) && _ && _ && _) eqn:Hlog; simpl fst.
  - destruct (obj_get "name" b) as [| |x|x|s|x|x] eqn:Hnm;
      try (rewrite forwarderStart_not_string by (intros s; discriminate);
           rewrite (forwarderCatch_present _ _ _ job) by (simpl; apply assoc_get_set_eq);
           simpl; rewrite assoc_get_set_eq; split; [now eexists|];
           exists []; rewrite app_nil_r;
           repeat split; [auto | intros c [] | intros s Hs; discriminate]).
    unfold forwarderStart. simpl. rewrite assoc_get_set_eq.
    split; [now eexists|]. eexists. split; [reflexivity|].
    split; [simpl; auto|]. split; [|reflexivity].
    intros c [<-|[]]. exists s, a. split; [reflexivity|]. split; [exact Hact|].
    unfold webhookData. now rewrite Hact.
  - simpl. rewrite assoc_get_set_eq. split; [now eexists|].
    exists []. rewrite app_nil_r.
    repeat split; [auto | intros c [] | intros s Hs Hl; discriminate].
Qed.

(** C8 as stated fails: when both readings of the clock fall in the same
    millisecond, the timestamp of the payload is the timestamp of the
    record. *)
Lemma payload_timestamp_can_equal_creation_timestamp :
  validSubmission alice = true /\
  exists call job,
    outbox (fst (postAttendance alice (mkOracle aliceId nineOClock nineOClock) initial))
    = [call] /\
    assoc_get aliceId
      (jobs (fst (postAttendance alice (mkOracle aliceId nineOClock nineOClock) initial)))
    = Some job /\
    js_get "timestamp" (w_body call) = VStr (timestamp job).
Proof.
  split; [reflexivity|]. eexists. eexists. repeat split; reflexivity.
Qed.

(** ** The legacy routes *)

(** C9. On every body, [POST /login] gives the state and the response
    that [POST /attendance] gives on that body with [action] set to
    'login', and [POST /logout] those it gives with [action] set to
    'logout': the result of the attendance logic on the completed body. *)
Theorem legacy_routes_are_attendance n b o w :
  handle (S (S n)) (mkRequest POST "/login" b) o w
  = handle (S n) (mkRequest POST "/attendance" (assoc_set "action" (VStr "login") b)) o w
  /\
  handle (S (S n)) (mkRequest POST "/logout" b) o w
  = handle (S n) (mkRequest POST "/attendance" (assoc_set "action" (VStr "logout") b)) o w
  /\
  handle (S (S n)) (mkRequest POST "/login" b) o w = Some (aliasOf "login" b o w)
  /\
  handle (S (S n)) (mkRequest POST "/logout" b) o w = Some (aliasOf "logout" b o w).
Proof.
  assert (Hlogin : handle (S (S n)) (mkRequest POST "/login" b) o w
                   = Some (aliasOf "login" b o w)).
  { change (handle (S (S n)) (mkRequest POST "/login" b) o w)
      with (handle (S n) (mkRequest POST "/attendance"
                            (assoc_set "action" (VStr "login") b)) o w).
    apply handle_attendance. }
  assert (Hlogout : handle (S (S n)) (mkRequest POST "/logout" b) o w
                    = Some (aliasOf "logout" b o w)).
  { change (handle (S (S n)) (mkRequest POST "/logout" b) o w)
      with (handle (S n) (mkRequest POST "/attendance"
                            (assoc_set "action" (VStr "logout") b)) o w).
    apply handle_attendance. }
  rewrite Hlogin, Hlogout, !handle_attendance. unfold aliasOf. auto.
Qed.

(** ** Recent activities *)

Section FilterPositions.
Context {A : Type} (f : A -> bool).



End FilterPositions.




Lemma toJSON_array xs : exists ys, toJSON (VArr xs) = VArr ys /\ length ys = length xs.
Proof.
  simpl. eexists. split; [reflexivity|].
  induction xs as [|x r IH]; simpl; [reflexivity|].
  destruct x; simpl; now rewrite IH.
Qed.






Section RecentActivities.
Variable dateParse : string -> option Z.


End RecentActivities.

(** ** The forwarding task and a record that is gone *)

(** C1 fails on the code.  A valid submission starts a task; the sweep
    removes the record, an hour old, while the task still waits; when the
    promise then settles, in each of the three ways (the body of a
    successful response parsed, a response with status 503, a network
    error), the assignment to [jobs[jobId].status] in the [catch] block
    throws and the error leaves the task: no failed record is written. *)
Theorem forwarder_throws_after_sweep :
  let sweep := EvCleanup (nineOClock + 3600001) in
  let escaped w :=
    jobs w = [] /\ tasks w = [] /\ unhandled w = [(aliceId, cannotSet)] in
  (exists w,
      run parseISO [ submitAlice; EvFetchSettled aliceId (Responded 200); sweep;
                     EvJsonSettled aliceId (Parsed (VObj [("ok", VBool true)])) ]
        initial = Some w /\ escaped w) /\
  (exists w,
      run parseISO [ submitAlice; sweep; EvFetchSettled aliceId (Responded 503) ]
        initial = Some w /\ escaped w) /\
  (exists w,
      run parseISO [ submitAlice; sweep; EvFetchSettled aliceId (Rejected "fetch failed") ]
        initial = Some w /\ escaped w).
Proof.
  repeat split; eexists; (split; [vm_compute; reflexivity | repeat split]).
Qed.

(** When the record is still there, the [catch] block records the
    failure and nothing leaves the task. *)
Lemma fetch_failure_is_recorded jobId r w j :
  assoc_get jobId (jobs w) = Some j ->
  match r with Responded code => response_ok code = false | Rejected _ => True end ->
  exists message,
    assoc_get jobId (jobs (fetchSettled jobId r w))
    = Some (mkJob failed (action j) (name j) (timestamp j) (Some message)
              (n8nResponse j)) /\
    unhandled (fetchSettled jobId r w) = unhandled w /\
    message =
      match r with
      | Responded code => ("N8N webhook responded with status: " ++ string_of_Z code)%string
      | Rejected m => m
      end.
Proof.
  intros Hget Hr. unfold fetchSettled.
  destruct r as [code|m]; [rewrite Hr|];
    (rewrite (forwarderCatch_present _ _ _ j) by exact Hget;
     simpl; rewrite assoc_get_set_eq; eexists; repeat split).
Qed.

(** ** The model on examples *)

Example status_route :
  handle 1 (mkRequest GET ("/status/" ++ aliceId) [])
    (mkOracle "unused" 0 0) afterSubmit
  = Some (afterSubmit,
          mkResponse 200
            (VObj [ ("status", VStr "processing"); ("action", VStr "login");
                    ("name", VStr "  Alice ");
                    ("timestamp", VStr "2024-01-01T09:00:00.000Z");
                    ("error", VNull); ("n8nResponse", VNull) ])).
Proof. reflexivity. Qed.

Example status_unknown_id :
  handle 1 (mkRequest GET "/status/unknown-id" []) (mkOracle "unused" 0 0) afterSubmit
  = Some (afterSubmit, mkResponse 404 (VObj [("status", VStr "not_found")])).
Proof. reflexivity. Qed.

Example unknown_route :
  handle 1 (mkRequest GET "/nowhere" []) (mkOracle "unused" 0 0) initial
  = Some (initial, mkResponse 404 (VObj [("error", VStr "Endpoint not found")])).
Proof. reflexivity. Qed.

Example submit_response :
  snd (postAttendance alice (mkOracle aliceId nineOClock nineOClock) initial)
  = mkResponse 200
      (VObj [ ("success", VBool true); ("jobId", VStr aliceId);
              ("message", VStr "Login request submitted successfully");
              ("action", VStr "login") ]).
Proof. reflexivity. Qed.

Example numeric_name_fails_at_once :
  jobs (fst (postAttendance numericName (mkOracle "id" nineOClock nineOClock) initial))
  = [ ("id", mkJob failed "logout" (VNum 5) "2024-01-01T09:00:00.000Z"
               (Some "name.trim is not a function") None) ].
Proof. reflexivity. Qed.

Example recent_of_twelve :
  map (js_get "jobId") (recentJobs twelveJobs)
  = [ VStr "L"; VStr "K"; VStr "J"; VStr "I"; VStr "H";
      VStr "G"; VStr "F"; VStr "E"; VStr "D"; VStr "C" ].
Proof. reflexivity. Qed.

Example sweep_of_sample :
  cleanupOldJobs parseISO (nineOClock + 1000) sampleJobs
  = Ok [ ("b", mkJob success "logout" (VStr "Bob") (toISOString nineOClock) None
                 (Some (VObj [("status", VStr "success")])));
         ("c", mkJob failed "login" (VStr "Cy") "not a date"
                 (Some "fetch failed") None) ].
Proof. reflexivity. Qed.

(** ** The theorems on the sample data *)

Lemma cleanupOldJobs_evicts_exactly_the_old_witness :
  NoDup (assoc_keys sampleJobs) /\
  exists js',
    cleanupOldJobs parseISO (nineOClock + 1000) sampleJobs = Ok js' /\
    (forall jobId job,
        assoc_get jobId sampleJobs = Some job ->
        match parseISO (timestamp job) with
        | Some jobTime =>
            if jobTime <? nineOClock + 1000 - 3600000
            then assoc_get jobId js' = None
            else assoc_get jobId js' = Some job
        | None => assoc_get jobId js' = Some job
        end) /\
    (forall jobId, assoc_get jobId sampleJobs = None -> assoc_get jobId js' = None).
Proof.
  assert (H : NoDup (assoc_keys sampleJobs)).
  { simpl. repeat constructor; simpl; intuition discriminate. }
  split; [exact H|].
  exact (cleanupOldJobs_evicts_exactly_the_old parseISO (nineOClock + 1000) sampleJobs H).
Defined.

Lemma status_moves_forward_at_most_once_witness :
  run parseISO [submitAlice] initial = Some afterSubmit /\
  run parseISO [ EvFetchSettled aliceId (Responded 200);
                 EvJsonSettled aliceId ParseFailed ] afterSubmit
  = Some afterSuccess /\
  assoc_get aliceId (jobs afterSubmit) = Some aliceProcessing /\
  assoc_get aliceId (jobs afterSuccess) = Some aliceSucceeded /\
  (status aliceSucceeded = status aliceProcessing \/
   (status aliceProcessing = processing /\
    (status aliceSucceeded = success \/ status aliceSucceeded = failed))) /\
  (forall es3 w3 j3,
      run parseISO es3 afterSuccess = Some w3 ->
      assoc_get aliceId (jobs w3) = Some j3 ->
      status aliceSucceeded <> status aliceProcessing ->
      status j3 = status aliceSucceeded).
Proof.
  assert (H1 : run parseISO [submitAlice] initial = Some afterSubmit)
    by (vm_compute; reflexivity).
  assert (H2 : run parseISO [ EvFetchSettled aliceId (Responded 200);
                              EvJsonSettled aliceId ParseFailed ] afterSubmit
               = Some afterSuccess) by (vm_compute; reflexivity).
  assert (H3 : assoc_get aliceId (jobs afterSubmit) = Some aliceProcessing)
    by reflexivity.
  assert (H4 : assoc_get aliceId (jobs afterSuccess) = Some aliceSucceeded)
    by reflexivity.
  split; [exact H1|]. split; [exact H2|]. split; [exact H3|]. split; [exact H4|].
  exact (status_moves_forward_at_most_once parseISO _ _ _ _ _ _ _ H1 H2 H3 H4).
Defined.

Lemma optional_properties_follow_status_witness :
  run parseISO [submitAlice; EvFetchSettled aliceId (Responded 200)] initial
  = Some (with_tasks [(aliceId, AwaitJson)] afterSubmit) /\
  assoc_get aliceId (jobs (with_tasks [(aliceId, AwaitJson)] afterSubmit))
  = Some aliceProcessing /\
  (error aliceProcessing = None -> n8nResponse aliceProcessing = None ->
   status aliceProcessing = processing) /\
  (status aliceProcessing = failed -> exists m, error aliceProcessing = Some m) /\
  (status aliceProcessing = success ->
   exists v, n8nResponse aliceProcessing = Some v) /\
  (has_task aliceId AwaitJson (with_tasks [(aliceId, AwaitJson)] afterSubmit) = true ->
   assoc_get aliceId
     (jobs (fst (step parseISO (EvJsonSettled aliceId ParseFailed)
                   (with_tasks [(aliceId, AwaitJson)] afterSubmit))))
   = Some aliceSucceeded).
Proof.
  assert (H1 : run parseISO [submitAlice; EvFetchSettled aliceId (Responded 200)] initial
               = Some (with_tasks [(aliceId, AwaitJson)] afterSubmit))
    by (vm_compute; reflexivity).
  assert (H2 : assoc_get aliceId (jobs (with_tasks [(aliceId, AwaitJson)] afterSubmit))
               = Some aliceProcessing) by reflexivity.
  split; [exact H1|]. split; [exact H2|].
  exact (optional_properties_follow_status parseISO _ _ _ _ H1 H2).
Defined.

Lemma getStatus_six_keys_witness :
  run parseISO [submitAlice] initial = Some afterSubmit /\
  assoc_get aliceId (jobs afterSubmit) = Some aliceProcessing /\
  exists e r,
    getStatus aliceId afterSubmit
    = mkResponse 200
        (VObj [ ("status", VStr (status_string (status aliceProcessing)));
                ("action", VStr (action aliceProcessing));
                ("name", toJSON (name aliceProcessing));
                ("timestamp", VStr (timestamp aliceProcessing));
                ("error", e);
                ("n8nResponse", r) ]) /\
    (error aliceProcessing = None -> e = VNull) /\
    (n8nResponse aliceProcessing = None -> r = VNull) /\
    (status aliceProcessing = processing -> e = VNull /\ r = VNull).
Proof.
  assert (H1 : run parseISO [submitAlice] initial = Some afterSubmit)
    by (vm_compute; reflexivity).
  assert (H2 : assoc_get aliceId (jobs afterSubmit) = Some aliceProcessing)
    by reflexivity.
  split; [exact H1|]. split; [exact H2|].
  exact (getStatus_six_keys parseISO _ _ _ _ H1 H2).
Defined.

Lemma invalid_submission_is_rejected_witness :
  (obj_get "action" aliceMaybe <> VStr "login" /\
   obj_get "action" aliceMaybe <> VStr "logout") /\
  exists r,
    handle 1 (mkRequest POST "/attendance" aliceMaybe)
      (mkOracle aliceId nineOClock nineOClock) afterSubmit = Some (afterSubmit, r) /\
    code r = 400 /\
    body r = badAction.
Proof.
  assert (H : obj_get "action" aliceMaybe <> VStr "login" /\
              obj_get "action" aliceMaybe <> VStr "logout")
    by (split; discriminate).
  split; [exact H|].
  exact (invalid_submission_is_rejected 0 aliceMaybe
           (mkOracle aliceId nineOClock nineOClock) afterSubmit (or_intror H)).
Defined.

Lemma webhook_payload_of_valid_submission_witness :
  validSubmission alice = true /\
  (exists j,
      assoc_get aliceId
        (jobs (fst (postAttendance alice (mkOracle aliceId nineOClock (nineOClock + 7)) initial)))
      = Some j /\
      timestamp j = "2024-01-01T09:00:00.000Z") /\
  exists calls,
    outbox (fst (postAttendance alice (mkOracle aliceId nineOClock (nineOClock + 7)) initial))
    = calls /\
    (length calls <= 1)%nat /\
    (forall c, In c calls ->
       exists s act,
         obj_get "name" alice = VStr s /\
         obj_get "action" alice = VStr act /\
         c = mkCall (webhookUrl act) "POST" webhookHeaders
               (VObj [ ("name", VStr (trim s));
                       ("department", VStr "Eng");
                       ("date", VStr "2024-01-01");
                       ("time", VStr "09:00");
                       ("action", VStr "login");
                       ("jobId", VStr aliceId);
                       ("timestamp", VStr "2024-01-01T09:00:00.007Z") ])
               30000) /\
    (forall s, obj_get "name" alice = VStr s -> loggable alice = true ->
               length calls = 1%nat).
Proof.
  assert (H : validSubmission alice = true) by reflexivity.
  split; [exact H|].
  exact (webhook_payload_of_valid_submission alice
           (mkOracle aliceId nineOClock (nineOClock + 7)) initial H).
Defined.


(** * Further properties of the handlers, the task and the sweep *)

(** ** Requests *)

Lemma Method_eqb_eq a b : Method_eqb a b = true -> a = b.
Proof. destruct a, b; simpl; congruence. Qed.

Lemma findRoute_In table m u h params :
  findRoute table m u = Some (h, params) -> exists pat, In (m, pat, h) table.
Proof.
  induction table as [|[[m' pat] h'] rest IH]; simpl; [discriminate|].
  destruct (Method_eqb m m') eqn:Hm.
  - apply Method_eqb_eq in Hm. subst m'.
    destruct (matchPath pat u).
    + intros [= <- _]. exists pat. now left.
    + intros H. destruct (IH H) as [pat' Hin]. exists pat'. now right.
  - intros H. destruct (IH H) as [pat' Hin]. exists pat'. now right.
Qed.

(** X1.  A GET request, whatever its path and body, is answered and leaves the
    state as it was: the table, the waiting tasks and the calls made. *)
Theorem get_requests_leave_the_state n u b o w :
  exists r, handle (S n) (mkRequest GET u b) o w = Some (w, r).
Proof.
  cbn [handle method url reqBody].
  destruct (findRoute routes GET u) as [[h params]|] eqn:Hroute;
    [|eexists; reflexivity].
  apply findRoute_In in Hroute. destruct Hroute as [pat Hin].
  simpl in Hin.
  repeat (destruct Hin as [Hin|Hin];
          [inversion Hin; subst; eexists; reflexivity|]).
  destruct Hin.
Qed.

Lemma obj_get_set k k' v b :
  obj_get k (assoc_set k' v b) = if (k' =? k)%string then v else obj_get k b.
Proof.
  unfold obj_get. destruct (String.eqb_spec k' k) as [->|Hne].
  - now rewrite assoc_get_set_eq.
  - now rewrite assoc_get_set_ne.
Qed.

Lemma webhookUrl_action act :
  act = "login" \/ act = "logout" -> webhookUrl act = (webhookBase ++ act)%string.
Proof. intros [-> | ->]; reflexivity. Qed.

Lemma validSubmission_fields b :
  validSubmission b = true ->
  truthy (obj_get "name" b) = true /\
  truthy (obj_get "department" b) = true /\
  truthy (obj_get "date" b) = true /\
  truthy (obj_get "time" b) = true /\
  exists act,
    obj_get "action" b = VStr act /\ (act = "login" \/ act = "logout") /\
    includesAction (obj_get "action" b) = Some act.
Proof.
  unfold validSubmission. intros Hv.
  repeat (apply andb_prop in Hv; destruct Hv as [Hv ?]).
  destruct (includesAction (obj_get "action" b)) as [a|] eqn:Ha; [|discriminate].
  pose proof (includesAction_Some _ _ Ha) as [Hact Hor].
  repeat split; trivial. exists a. auto.
Qed.

(** What the handler does with a valid body, in one equation. *)
Lemma postAttendance_valid b o w :
  validSubmission b = true ->
  exists act,
    obj_get "action" b = VStr act /\ (act = "login" \/ act = "logout") /\
    postAttendance b o w
    = if loggable b
      then
        (forwarderStart (o_uuid o) (obj_get "name" b) (obj_get "department" b)
           (obj_get "date" b) (obj_get "time" b) act (o_now2 o) (created b act o w),
         mkResponse 200
           (VObj [ ("success", VBool true);
                   ("jobId", VStr (o_uuid o));
                   ("message",
                    VStr (capitalize act ++ " request submitted successfully"));
                   ("action", VStr act) ]))
      else (created b act o w, mkResponse 500 (internalError cannotConvert)).
Proof.
  intros Hv. destruct (validSubmission_fields b Hv)
    as [H1 [H2 [H3 [H4 [act [Hact [Hor Hinc]]]]]]].
  exists act. split; [exact Hact|]. split; [exact Hor|].
  unfold postAttendance, loggable. rewrite H1, H2, H3, H4, Hinc.
  replace (truthy (obj_get "action" b)) with true
    by (rewrite Hact; destruct Hor as [-> | ->]; reflexivity).
  simpl orb. cbv iota.
  destruct (stringifies (obj_get "name" b) && _ && _ && _); reflexivity.
Qed.

Lemma postAttendance_invalid b o w :
  validSubmission b = false ->
  postAttendance b o w
  = (w,
     mkResponse 400
       (if truthy (obj_get "name" b) && truthy (obj_get "department" b)
           && truthy (obj_get "date" b) && truthy (obj_get "time" b)
           && truthy (obj_get "action" b)
        then badAction else missingFields)).
Proof.
  unfold validSubmission, postAttendance.
  destruct (truthy (obj_get "name" b)); simpl; [|reflexivity].
  destruct (truthy (obj_get "department" b)); simpl; [|reflexivity].
  destruct (truthy (obj_get "date" b)); simpl; [|reflexivity].
  destruct (truthy (obj_get "time" b)); simpl; [|reflexivity].
  destruct (truthy (obj_get "action" b)); simpl; [|reflexivity].
  destruct (includesAction (obj_get "action" b)); [discriminate | reflexivity].
Qed.

(** X2.  The three answers of the attendance handler.  A body in which the
    five fields are truthy and the action is 'login' or 'logout' is
    answered 200 when the name, department, date and time can be written
    to the log; when one of them cannot be converted to a string (an
    object with a property toString of its own) it is answered 500 with
    the message of the TypeError, and the record, already created, stays
    processing with no task and no call.  Every other body, one with a
    field that is null, false, 0 or the empty string included, is
    answered 400 and changes nothing. *)
Theorem attendance_accepts_exactly_the_valid b o w :
  (validSubmission b = true -> loggable b = true ->
   code (snd (postAttendance b o w)) = 200) /\
  (validSubmission b = true -> loggable b = false ->
   exists act,
     obj_get "action" b = VStr act /\
     postAttendance b o w
     = (mkWorld
          (assoc_set (o_uuid o)
             (mkJob processing act (obj_get "name" b) (toISOString (o_now1 o))
                None None)
             (jobs w))
          (tasks w) (issued w ++ [o_uuid o]) (outbox w) (unhandled w),
        mkResponse 500
          (VObj [ ("error", VStr "Internal server error");
                  ("message", VStr "Cannot convert object to primitive value") ]))) /\
  (validSubmission b = false ->
   postAttendance b o w
   = (w,
      mkResponse 400
        (if truthy (obj_get "name" b) && truthy (obj_get "department" b)
            && truthy (obj_get "date" b) && truthy (obj_get "time" b)
            && truthy (obj_get "action" b)
         then badAction else missingFields))).
Proof.
  split; [|split].
  - intros Hv Hl. destruct (postAttendance_valid b o w Hv) as [act [_ [_ Heq]]].
    rewrite Heq, Hl. reflexivity.
  - intros Hv Hl. destruct (postAttendance_valid b o w Hv) as [act [Hact [_ Heq]]].
    exists act. split; [exact Hact|]. rewrite Heq, Hl. reflexivity.
  - apply postAttendance_invalid.
Qed.

(** X3.  A valid submission whose name is a string, and whose department,
    date and time can be written to the log, is answered 200 with the job
    id and the message 'Login request submitted successfully' or 'Logout
    request submitted successfully'; it puts a processing record under the
    job id, suspends one task on it and makes one call, to the webhook of
    the action; nothing else changes. *)
Theorem valid_submission_with_string_name b o w s :
  validSubmission b = true ->
  loggable b = true ->
  obj_get "name" b = VStr s ->
  exists act,
    obj_get "action" b = VStr act /\
    (act = "login" \/ act = "logout") /\
    snd (postAttendance b o w)
    = mkResponse 200
        (VObj [ ("success", VBool true);
                ("jobId", VStr (o_uuid o));
                ("message",
                 VStr (if (act =? "login")%string
                       then "Login request submitted successfully"
                       else "Logout request submitted successfully"));
                ("action", VStr act) ]) /\
    fst (postAttendance b o w)
    = mkWorld
        (assoc_set (o_uuid o)
           (mkJob processing act (VStr s) (toISOString (o_now1 o)) None None)
           (jobs w))
        (tasks w ++ [(o_uuid o, AwaitFetch)])
        (issued w ++ [o_uuid o])
        (outbox w ++
         [mkCall (webhookBase ++ act) "POST" webhookHeaders
            (webhookData s (obj_get "department" b) (obj_get "date" b)
               (obj_get "time" b) act (o_uuid o) (o_now2 o)) 30000])
        (unhandled w).
Proof.
  intros Hv Hl Hname.
  destruct (postAttendance_valid b o w Hv) as [act [Hact [Hor Heq]]].
  exists act. split; [exact Hact|]. split; [exact Hor|].
  rewrite Heq, Hl. unfold created. rewrite Hname. simpl.
  rewrite (webhookUrl_action act Hor).
  split; [|reflexivity].
  destruct Hor as [-> | ->]; reflexivity.
Qed.

Lemma forwarderStart_created_other b act o w :
  (forall s, obj_get "name" b <> VStr s) ->
  forwarderStart (o_uuid o) (obj_get "name" b) (obj_get "department" b)
    (obj_get "date" b) (obj_get "time" b) act (o_now2 o) (created b act o w)
  = mkWorld
      (assoc_set (o_uuid o)
         (mkJob failed act (obj_get "name" b) (toISOString (o_now1 o))
            (Some nameNotAFunction) None)
         (jobs w))
      (tasks w) (issued w ++ [o_uuid o]) (outbox w) (unhandled w).
Proof.
  intros Hname. rewrite forwarderStart_not_string by exact Hname.
  rewrite (forwarderCatch_present _ _ _
             (mkJob processing act (obj_get "name" b) (toISOString (o_now1 o)) None None))
    by (simpl; apply assoc_get_set_eq).
  unfold with_jobs, created. simpl. now rewrite assoc_set_set.
Qed.

(** X4.  A valid submission whose name is not a string (a number, true, an
    array, an object), when the fields can be written to the log, is
    answered 200 all the same, but its record is failed from the start,
    with the error of [name.trim()]; no call is made and no task is left
    waiting. *)
Theorem valid_submission_with_other_name b o w :
  validSubmission b = true ->
  loggable b = true ->
  (forall s, obj_get "name" b <> VStr s) ->
  exists act,
    obj_get "action" b = VStr act /\
    code (snd (postAttendance b o w)) = 200 /\
    fst (postAttendance b o w)
    = mkWorld
        (assoc_set (o_uuid o)
           (mkJob failed act (obj_get "name" b) (toISOString (o_now1 o))
              (Some nameNotAFunction) None)
           (jobs w))
        (tasks w) (issued w ++ [o_uuid o]) (outbox w) (unhandled w).
Proof.
  intros Hv Hl Hname.
  destruct (postAttendance_valid b o w Hv) as [act [Hact [Hor Heq]]].
  exists act. split; [exact Hact|]. rewrite Heq, Hl. split; [reflexivity|].
  simpl fst. now apply forwarderStart_created_other.
Qed.

Lemma legacy_routes_are_attendance_shape n :
  (forall b o w,
      handle (S (S n)) (mkRequest POST "/login" b) o w
      = Some (postAttendance (assoc_set "action" (VStr "login") b) o w)) /\
  (forall b o w,
      handle (S (S n)) (mkRequest POST "/logout" b) o w
      = Some (postAttendance (assoc_set "action" (VStr "logout") b) o w)).
Proof. split; intros b o w; reflexivity. Qed.

(** X6.  The legacy routes take the action from the route, not from the
    client: whatever [action] the body carries, or none, [POST /login]
    answers as it does on the body without it, and with the other four
    fields truthy and fit for the log it accepts the request; the same
    for [POST /logout]. *)
Theorem legacy_routes_override_the_action n b o w v :
  handle (S (S n)) (mkRequest POST "/login" (assoc_set "action" v b)) o w
  = handle (S (S n)) (mkRequest POST "/login" b) o w /\
  handle (S (S n)) (mkRequest POST "/logout" (assoc_set "action" v b)) o w
  = handle (S (S n)) (mkRequest POST "/logout" b) o w /\
  (truthy (obj_get "name" b) = true -> truthy (obj_get "department" b) = true ->
   truthy (obj_get "date" b) = true -> truthy (obj_get "time" b) = true ->
   loggable b = true ->
   exists w1 r1 w2 r2,
     handle (S (S n)) (mkRequest POST "/login" b) o w = Some (w1, r1) /\
     code r1 = 200 /\ js_get "action" (body r1) = VStr "login" /\
     handle (S (S n)) (mkRequest POST "/logout" b) o w = Some (w2, r2) /\
     code r2 = 200 /\ js_get "action" (body r2) = VStr "logout").
Proof.
  destruct (legacy_routes_are_attendance_shape n) as [Hin Hout].
  split; [|split].
  - now rewrite !Hin, assoc_set_set.
  - now rewrite !Hout, assoc_set_set.
  - intros H1 H2 H3 H4 Hl.
    assert (Hvalid : forall act, act = "login" \/ act = "logout" ->
              validSubmission (assoc_set "action" (VStr act) b) = true).
    { intros act Hor. unfold validSubmission. rewrite !obj_get_set. simpl.
      rewrite H1, H2, H3, H4. destruct Hor as [-> | ->]; reflexivity. }
    assert (Hlog : forall act, loggable (assoc_set "action" (VStr act) b) = true).
    { intros act. unfold loggable in *. rewrite !obj_get_set. simpl. exact Hl. }
    destruct (postAttendance_valid (assoc_set "action" (VStr "login") b) o w
                (Hvalid _ (or_introl eq_refl))) as [a1 [Ha1 [_ He1]]].
    destruct (postAttendance_valid (assoc_set "action" (VStr "logout") b) o w
                (Hvalid _ (or_intror eq_refl))) as [a2 [Ha2 [_ He2]]].
    rewrite Hlog in He1, He2.
    rewrite obj_get_set in Ha1, Ha2. simpl in Ha1, Ha2.
    injection Ha1 as <-. injection Ha2 as <-.
    do 4 eexists. rewrite Hin, Hout, He1, He2.
    repeat split; reflexivity.
Qed.

(** ** The forwarding task, record by record *)

Lemma assoc_set_keys_same {A : Type} k (v v' : A) o :
  assoc_get k o = Some v -> assoc_keys (assoc_set k v' o) = assoc_keys o.
Proof.
  intros H. apply assoc_set_keys_present. eapply assoc_get_Some_key; eassumption.
Qed.

(** X8.  When the record is there, the success branch writes the status and
    the parsed body (or [{status: "success"}] when the body does not
    parse) into it and nothing leaves the task. *)
Theorem json_success_is_recorded jobId r w j :
  assoc_get jobId (jobs w) = Some j ->
  assoc_get jobId (jobs (jsonSettled jobId r w))
  = Some (mkJob success (action j) (name j) (timestamp j) (error j)
            (Some match r with
                  | Parsed v => v
                  | ParseFailed => VObj [("status", VStr "success")]
                  end)) /\
  unhandled (jsonSettled jobId r w) = unhandled w.
Proof.
  intros Hget. unfold jsonSettled.
  change (jobs (drop_task jobId AwaitJson w)) with (jobs w).
  rewrite (job_assign_present _ _ _ j) by exact Hget. simpl.
  rewrite (job_assign_present _ _ _ (setStatus success j))
    by apply assoc_get_set_eq.
  simpl. rewrite assoc_get_set_eq. split; reflexivity.
Qed.

(** X9.  When the record is there and [fetch] rejects or the response is not
    in the success range, the [catch] block writes status 'failed' and the
    message into it, the message of the rejection or 'N8N webhook responded
    with status: ' followed by the status code, and nothing leaves the
    task; the other properties of the record stay. *)
Theorem fetch_failure_is_written_to_the_record jobId r w j :
  assoc_get jobId (jobs w) = Some j ->
  match r with Responded c => response_ok c = false | Rejected _ => True end ->
  assoc_get jobId (jobs (fetchSettled jobId r w))
  = Some (mkJob failed (action j) (name j) (timestamp j)
            (Some match r with
                  | Responded c =>
                      ("N8N webhook responded with status: " ++ string_of_Z c)%string
                  | Rejected message => message
                  end)
            (n8nResponse j)) /\
  unhandled (fetchSettled jobId r w) = unhandled w.
Proof.
  intros Hget Hr.
  destruct (fetch_failure_is_recorded jobId r w j Hget Hr) as [m [Hm [Hu ->]]].
  split; [exact Hm | exact Hu].
Qed.

Lemma forwarderCatch_frame jobId message w :
  (forall id, id <> jobId ->
              assoc_get id (jobs (forwarderCatch jobId message w)) = assoc_get id (jobs w)) /\
  assoc_keys (jobs (forwarderCatch jobId message w)) = assoc_keys (jobs w) /\
  tasks (forwarderCatch jobId message w) = tasks w /\
  issued (forwarderCatch jobId message w) = issued w /\
  outbox (forwarderCatch jobId message w) = outbox w.
Proof.
  destruct (assoc_get jobId (jobs w)) as [j|] eqn:Hget.
  - rewrite (forwarderCatch_present _ _ _ j) by exact Hget. simpl.
    repeat split.
    + intros id Hne. apply assoc_get_set_ne. congruence.
    + eapply assoc_set_keys_same; eassumption.
  - rewrite forwarderCatch_absent by exact Hget. simpl. repeat split.
Qed.

(** X10.  The task of one job never touches another job: when a promise of the
    task of [jobId] settles, in any way, every other record is what it
    was, the table has the same keys in the same order, and no call is
    made and no identifier issued. *)
Theorem settling_touches_one_record jobId w :
  (forall r,
      (forall id, id <> jobId ->
                  assoc_get id (jobs (fetchSettled jobId r w)) = assoc_get id (jobs w)) /\
      assoc_keys (jobs (fetchSettled jobId r w)) = assoc_keys (jobs w) /\
      issued (fetchSettled jobId r w) = issued w /\
      outbox (fetchSettled jobId r w) = outbox w) /\
  (forall r,
      (forall id, id <> jobId ->
                  assoc_get id (jobs (jsonSettled jobId r w)) = assoc_get id (jobs w)) /\
      assoc_keys (jobs (jsonSettled jobId r w)) = assoc_keys (jobs w) /\
      issued (jsonSettled jobId r w) = issued w /\
      outbox (jsonSettled jobId r w) = outbox w).
Proof.
  split; intros r.
  - unfold fetchSettled.
    assert (Hc : forall m,
      (forall id, id <> jobId ->
         assoc_get id (jobs (forwarderCatch jobId m (drop_task jobId AwaitFetch w)))
         = assoc_get id (jobs w)) /\
      assoc_keys (jobs (forwarderCatch jobId m (drop_task jobId AwaitFetch w)))
      = assoc_keys (jobs w) /\
      issued (forwarderCatch jobId m (drop_task jobId AwaitFetch w)) = issued w /\
      outbox (forwarderCatch jobId m (drop_task jobId AwaitFetch w)) = outbox w).
    { intros m.
      destruct (forwarderCatch_frame jobId m (drop_task jobId AwaitFetch w))
        as [H1 [H2 [_ [H4 H5]]]]. auto. }
    destruct r as [c|m]; [destruct (response_ok c)|]; try apply Hc.
    simpl. auto.
  - unfold jsonSettled.
    change (jobs (drop_task jobId AwaitJson w)) with (jobs w).
    destruct (assoc_get jobId (jobs w)) as [j|] eqn:Hget.
    + rewrite (job_assign_present _ _ _ j) by exact Hget. simpl.
      rewrite (job_assign_present _ _ _ (setStatus success j))
        by apply assoc_get_set_eq.
      rewrite assoc_set_set. simpl. repeat split.
      * intros id Hne. apply assoc_get_set_ne. congruence.
      * eapply assoc_set_keys_same; eassumption.
    + rewrite job_assign_absent by exact Hget. simpl.
      destruct (forwarderCatch_frame jobId cannotSet (drop_task jobId AwaitJson w))
        as [H1 [H2 [_ [H4 H5]]]]. auto.
Qed.

(** ** Every event is one of the transitions *)

Lemma name_string_or_not (v : jsval) :
  (exists s, v = VStr s) \/ (forall s, v <> VStr s).
Proof. destruct v; eauto; right; intros; discriminate. Qed.

Lemma postAttendance_transition b o w :
  ~ In (o_uuid o) (issued w) -> transition w (fst (postAttendance b o w)).
Proof.
  intros Hfresh. destruct (validSubmission b) eqn:Hv.
  - destruct (validSubmission_fields b Hv) as [H1 _].
    destruct (postAttendance_valid b o w Hv) as [act [Hact [Hor Heq]]].
    rewrite Heq. destruct (loggable b); simpl fst.
    + destruct (name_string_or_not (obj_get "name" b)) as [[s Hs]|Hns].
      * unfold created. rewrite Hs. unfold forwarderStart.
        cbn [jobs tasks issued outbox unhandled].
        apply tr_create; trivial.
        intros ->. rewrite Hs in H1. simpl in H1. discriminate.
      * rewrite forwarderStart_created_other by exact Hns.
        now apply tr_create_failed.
    + unfold created. now apply tr_create_only.
  - rewrite postAttendance_invalid by exact Hv. apply tr_none.
Qed.

Lemma forwarderCatch_transition jobId ph message w :
  In (jobId, ph) (tasks w) ->
  transition w (forwarderCatch jobId message (drop_task jobId ph w)).
Proof.
  intros Hin. destruct (assoc_get jobId (jobs w)) as [j|] eqn:Hget.
  - rewrite (forwarderCatch_present _ _ _ j) by exact Hget.
    exact (tr_failed w jobId ph j message Hin Hget).
  - rewrite forwarderCatch_absent by exact Hget.
    exact (tr_escaped w jobId ph Hin Hget).
Qed.

Lemma fetchSettled_transition jobId r w :
  In (jobId, AwaitFetch) (tasks w) -> transition w (fetchSettled jobId r w).
Proof.
  intros Hin. unfold fetchSettled.
  destruct r as [c|m]; [destruct (response_ok c)|].
  - exact (tr_responded w jobId Hin).
  - now apply forwarderCatch_transition.
  - now apply forwarderCatch_transition.
Qed.

Lemma jsonSettled_transition jobId r w :
  In (jobId, AwaitJson) (tasks w) -> transition w (jsonSettled jobId r w).
Proof.
  intros Hin. unfold jsonSettled.
  change (jobs (drop_task jobId AwaitJson w)) with (jobs w).
  destruct (assoc_get jobId (jobs w)) as [j|] eqn:Hget.
  - rewrite (job_assign_present _ _ _ j) by exact Hget. simpl.
    rewrite (job_assign_present _ _ _ (setStatus success j))
      by apply assoc_get_set_eq.
    rewrite assoc_set_set.
    exact (tr_succeeded w jobId j _ Hin Hget).
  - rewrite job_assign_absent by exact Hget. simpl.
    now apply forwarderCatch_transition.
Qed.

Section Transitions.
Variable dateParse : string -> option Z.

Lemma step_transition e w :
  Inv w -> enabled e w = true -> transition w (fst (step dateParse e w)).
Proof.
  intros Hinv Hen. destruct e as [req o|jobId r|jobId r|now];
    unfold step, enabled in *.
  - destruct (handle_shape req o w) as [w' [r [Hh Hcase]]].
    rewrite Hh. simpl. destruct Hcase as [->|[b ->]]; [apply tr_none|].
    apply postAttendance_transition.
    intros Hin. apply negb_true_iff in Hen.
    assert (Hex : existsb (String.eqb (o_uuid o)) (issued w) = true).
    { apply existsb_exists. exists (o_uuid o). split; [exact Hin|].
      apply String.eqb_refl. }
    congruence.
  - apply fetchSettled_transition. now apply has_task_In.
  - apply jsonSettled_transition. now apply has_task_In.
  - rewrite cleanupOldJobs_filter by apply (inv_keys_distinct w Hinv).
    simpl. apply tr_swept.
Qed.

(** A property of states that the initial state has and every transition
    out of a well-formed state keeps holds of every state of a run. *)
Lemma run_invariant (P : World -> Prop) :
  P initial ->
  (forall w w', Inv w -> P w -> transition w w' -> P w') ->
  forall es w, run dateParse es initial = Some w -> P w.
Proof.
  intros Hinit Hstep es.
  assert (Hgen : forall w w', Inv w -> P w -> run dateParse es w = Some w' -> P w').
  { induction es as [|e rest IH]; intros w w' Hinv HP Hrun; simpl in Hrun.
    - now injection Hrun as <-.
    - destruct (enabled e w) eqn:Hen; [|discriminate].
      apply (IH (fst (step dateParse e w)) w'); trivial.
      + apply (step_follows dateParse e w Hinv Hen).
      + apply (Hstep w); trivial. now apply step_transition. }
  intros w. apply Hgen; [apply Inv_initial | exact Hinit].
Qed.

(** A relation between states that is reflexive and transitive and holds
    across every transition out of a well-formed state holds between any
    state and a later one of the run. *)
Lemma run_relation (R : World -> World -> Prop) :
  (forall w, R w w) ->
  (forall w1 w2 w3, R w1 w2 -> R w2 w3 -> R w1 w3) ->
  (forall w w', Inv w -> transition w w' -> R w w') ->
  forall es w w', Inv w -> run dateParse es w = Some w' -> R w w'.
Proof.
  intros Hrefl Htrans Hstep es.
  induction es as [|e rest IH]; intros w w' Hinv Hrun; simpl in Hrun.
  - injection Hrun as <-. apply Hrefl.
  - destruct (enabled e w) eqn:Hen; [|discriminate].
    apply (Htrans w (fst (step dateParse e w)) w').
    + apply Hstep; trivial. now apply step_transition.
    + apply IH; trivial. apply (step_follows dateParse e w Hinv Hen).
Qed.

End Transitions.

(** ** The life of a record *)

Lemma rewritten_refl a : rewritten a a.
Proof. destruct a; simpl; auto. Qed.

Lemma rewritten_trans a b c : rewritten a b -> rewritten b c -> rewritten a c.
Proof.
  destruct a as [ja|], b as [jb|], c as [jc|]; simpl; try tauto.
  intros [->|[Hp Hw]] H2; [exact H2|].
  destruct H2 as [->|[Hp' _]]; [right; auto|].
  exfalso. destruct Hw as [[m ->]|[v ->]]; simpl in Hp'; discriminate.
Qed.

Lemma assoc_get_filter_Some {A : Type} (f : string * A -> bool) k v o :
  NoDup (assoc_keys o) -> assoc_get k (filter f o) = Some v -> assoc_get k o = Some v.
Proof.
  intros Hnd. rewrite assoc_get_filter by assumption.
  destruct (assoc_get k o) as [x|]; [|discriminate].
  destruct (f (k, x)); [trivial | discriminate].
Qed.

Lemma transition_issued w w' : transition w w' -> incl (issued w) (issued w').
Proof.
  intros H. destruct H; simpl; try apply incl_refl; apply incl_appl, incl_refl.
Qed.

Lemma transition_rewritten w w' :
  Inv w -> transition w w' ->
  forall id, In id (issued w) ->
             rewritten (assoc_get id (jobs w)) (assoc_get id (jobs w')).
Proof.
  intros Hinv Htr id Hid.
  assert (Hproc : forall jobId ph j,
             In (jobId, ph) (tasks w) -> assoc_get jobId (jobs w) = Some j ->
             status j = processing).
  { intros jobId ph j Hin Hget.
    apply (inv_tasks_processing w Hinv jobId j); [|exact Hget].
    apply (in_map fst) in Hin. exact Hin. }
  destruct Htr as [ | jobId act s dep date time now1 now2 Hfresh _ _
                     | jobId act nm now1 Hfresh _ _
                     | jobId act nm now1 Hfresh _ _ _
                     | jobId Hin
                     | jobId ph j m Hin Hget
                     | jobId j v Hin Hget
                     | jobId ph Hin Hget
                     | f ]; simpl.
  - apply rewritten_refl.
  - rewrite assoc_get_set_ne by congruence. apply rewritten_refl.
  - rewrite assoc_get_set_ne by congruence. apply rewritten_refl.
  - rewrite assoc_get_set_ne by congruence. apply rewritten_refl.
  - apply rewritten_refl.
  - destruct (string_dec jobId id) as [<-|Hne].
    + rewrite assoc_get_set_eq, Hget. simpl. right.
      split; [eapply Hproc; eassumption | left; now exists m].
    + rewrite assoc_get_set_ne by assumption. apply rewritten_refl.
  - destruct (string_dec jobId id) as [<-|Hne].
    + rewrite assoc_get_set_eq, Hget. simpl. right.
      split; [eapply Hproc; eassumption | right; now exists v].
    + rewrite assoc_get_set_ne by assumption. apply rewritten_refl.
  - apply rewritten_refl.
  - rewrite assoc_get_filter by apply (inv_keys_distinct w Hinv).
    destruct (assoc_get id (jobs w)) as [x|]; simpl; [|trivial].
    destruct (f (id, x)); simpl; auto.
Qed.

Section Lives.
Variable dateParse : string -> option Z.

Lemma run_rewritten es w w' :
  Inv w -> run dateParse es w = Some w' ->
  incl (issued w) (issued w') /\
  forall id, In id (issued w) ->
             rewritten (assoc_get id (jobs w)) (assoc_get id (jobs w')).
Proof.
  apply (run_relation dateParse
           (fun w w' =>
              incl (issued w) (issued w') /\
              forall id, In id (issued w) ->
                         rewritten (assoc_get id (jobs w)) (assoc_get id (jobs w')))).
  - intros w0. split; [apply incl_refl | intros; apply rewritten_refl].
  - intros w1 w2 w3 [Hi1 Hr1] [Hi2 Hr2]. split.
    + eapply incl_tran; eassumption.
    + intros id Hid. eapply rewritten_trans; [now apply Hr1|].
      apply Hr2. now apply Hi1.
  - intros w0 w0' Hinv Htr. split.
    + now apply transition_issued.
    + now apply transition_rewritten.
Qed.

(** X11.  Between two states of a run the record under a job id is written at
    most once: it is the same record, or it was processing and is now the
    same record failed with an error, or the same record successful with
    a response.  Its action, name and timestamp never change, and a record
    that is failed or successful is never written again. *)
Theorem record_is_written_at_most_once es1 es2 w1 w2 jobId j1 j2 :
  run dateParse es1 initial = Some w1 ->
  run dateParse es2 w1 = Some w2 ->
  assoc_get jobId (jobs w1) = Some j1 ->
  assoc_get jobId (jobs w2) = Some j2 ->
  (j2 = j1 \/
   (status j1 = processing /\
    ((exists message,
         j2 = mkJob failed (action j1) (name j1) (timestamp j1) (Some message) None) \/
     (exists v,
         j2 = mkJob success (action j1) (name j1) (timestamp j1) None (Some v))))) /\
  action j2 = action j1 /\ name j2 = name j1 /\ timestamp j2 = timestamp j1 /\
  (status j1 <> processing -> j2 = j1).
Proof.
  intros Hr1 Hr2 Hg1 Hg2.
  pose proof (run_Inv dateParse es1 w1 Hr1) as Hinv.
  destruct (run_rewritten es2 w1 w2 Hinv Hr2) as [_ Hrw].
  pose proof (Hrw jobId (run_issued dateParse es1 w1 jobId j1 Hr1 Hg1)) as H.
  rewrite Hg1, Hg2 in H. simpl in H.
  destruct (inv_jobs_ok w1 Hinv jobId j1 Hg1) as [_ Hst].
  destruct H as [->|[Hp Hw]]; [repeat split; auto|].
  rewrite Hp in Hst. destruct Hst as [He Hn].
  destruct Hw as [[m ->]|[v ->]]; unfold setError, setN8nResponse, setStatus; simpl;
    rewrite ?He, ?Hn; repeat split; try congruence; right; split; trivial.
  - left. now exists m.
  - right. now exists v.
Qed.

(** X12.  A record that is gone does not come back: once the sweep has removed
    the record of an issued job id, no later event puts a record under
    that id, so the status route answers 404 for it ever after. *)
Theorem removed_record_never_returns es1 es2 w1 w2 jobId :
  run dateParse es1 initial = Some w1 ->
  run dateParse es2 w1 = Some w2 ->
  In jobId (issued w1) ->
  assoc_get jobId (jobs w1) = None ->
  assoc_get jobId (jobs w2) = None /\
  getStatus jobId w2 = mkResponse 404 (VObj [("status", VStr "not_found")]).
Proof.
  intros Hr1 Hr2 Hiss Hg1.
  pose proof (run_Inv dateParse es1 w1 Hr1) as Hinv.
  destruct (run_rewritten es2 w1 w2 Hinv Hr2) as [_ Hrw].
  pose proof (Hrw jobId Hiss) as H. rewrite Hg1 in H. simpl in H.
  destruct (assoc_get jobId (jobs w2)) as [j|] eqn:Hg2; [contradiction|].
  split; [reflexivity|]. unfold getStatus. now rewrite Hg2.
Qed.

(** X13.  Every record of a state of a run has the action 'login' or 'logout',
    a truthy name, and a timestamp written by [toISOString]. *)
Theorem records_have_the_shape_of_a_submission es w jobId j :
  run dateParse es initial = Some w ->
  assoc_get jobId (jobs w) = Some j ->
  (action j = "login" \/ action j = "logout") /\
  truthy (name j) = true /\
  exists now, timestamp j = toISOString now.
Proof.
  intros Hrun. revert jobId j.
  refine (run_invariant dateParse
            (fun w => forall id j, assoc_get id (jobs w) = Some j -> job_shape j)
            _ _ es w Hrun).
  - intros id j H. discriminate.
  - clear. intros w w' Hinv HP Htr id j0.
    assert (Hset : forall jobId j2,
               job_shape j2 ->
               assoc_get id (assoc_set jobId j2 (jobs w)) = Some j0 -> job_shape j0).
    { intros jobId j2 Hs. destruct (string_dec jobId id) as [<-|Hne].
      - rewrite assoc_get_set_eq. now intros [= <-].
      - rewrite assoc_get_set_ne by assumption. apply HP. }
    destruct Htr as [ | jobId act s dep date time now1 now2 _ Hact Hs
                       | jobId act nm now1 _ Hact Hnm
                       | jobId act nm now1 _ Hact Hnm _
                       | jobId Hin
                       | jobId ph j m Hin Hget
                       | jobId j v Hin Hget
                       | jobId ph Hin Hget
                       | f ]; simpl; try apply HP.
    + apply Hset. repeat split; simpl; trivial.
      * apply negb_true_iff. now apply String.eqb_neq.
      * now exists now1.
    + apply Hset. repeat split; simpl; trivial. now exists now1.
    + apply Hset. repeat split; simpl; trivial. now exists now1.
    + apply Hset. apply (HP jobId j Hget).
    + apply Hset. apply (HP jobId j Hget).
    + intros H. apply (HP id).
      eapply assoc_get_filter_Some; [apply (inv_keys_distinct w Hinv) | exact H].
Qed.

End Lives.

(** ** Waiting tasks, escaped errors and outbound calls *)

Lemma drop_task_keeps_others jobId ph w id :
  In id (task_ids w) -> id <> jobId ->
  In id (map fst (tasks (drop_task jobId ph w))).
Proof.
  unfold task_ids, drop_task. simpl. intros Hin Hne.
  apply in_map_iff in Hin. destruct Hin as [[k p] [Hk Hin]]. simpl in Hk. subst k.
  apply in_map_iff. exists (id, p). split; [reflexivity|].
  apply filter_In. split; [exact Hin|].
  unfold task_eqb. simpl.
  destruct (String.eqb_spec id jobId); [contradiction | reflexivity].
Qed.

Lemma transition_processing_has_task w w' :
  Inv w -> transition w w' ->
  (forall c, In c (outbox w) ->
             exists id, call_jobId c = VStr id /\ In id (issued w)) ->
  (forall id j, assoc_get id (jobs w) = Some j -> status j = processing ->
                (exists c, In c (outbox w) /\ call_jobId c = VStr id) ->
                In id (task_ids w)) ->
  forall id j, assoc_get id (jobs w') = Some j -> status j = processing ->
               (exists c, In c (outbox w') /\ call_jobId c = VStr id) ->
               In id (task_ids w').
Proof.
  intros Hinv Htr HI HP id j0.
  unfold task_ids in *.
  destruct Htr as [ | jobId act s dep date time now1 now2 _ _ _
                     | jobId act nm now1 Hfresh _ _
                     | jobId act nm now1 _ _ _ _
                     | jobId Hin
                     | jobId ph j m Hin Hget
                     | jobId j v Hin Hget
                     | jobId ph Hin Hget
                     | f ]; simpl.
  - apply HP.
  - rewrite map_app, in_app_iff. simpl.
    destruct (string_dec jobId id) as [<-|Hne]; [auto|].
    rewrite assoc_get_set_ne by assumption. intros Hg Hp [c [Hc Hid]]. left.
    apply (HP id j0 Hg Hp). exists c. split; [|exact Hid].
    apply in_app_or in Hc. destruct Hc as [Hc|[<-|[]]]; [exact Hc|].
    exfalso. change (VStr jobId = VStr id) in Hid. congruence.
  - destruct (string_dec jobId id) as [<-|Hne].
    + intros _ _ [c [Hc Hid]]. exfalso.
      destruct (HI c Hc) as [id' [Hid' Hiss]].
      assert (id' = jobId) by congruence. subst id'. contradiction.
    + rewrite assoc_get_set_ne by assumption. apply HP.
  - destruct (string_dec jobId id) as [<-|Hne].
    + rewrite assoc_get_set_eq. intros [= <-]. discriminate.
    + rewrite assoc_get_set_ne by assumption. apply HP.
  - rewrite map_app, in_app_iff. simpl. intros Hg Hp Hc.
    destruct (string_dec id jobId) as [->|Hne]; [auto|].
    left. apply (drop_task_keeps_others jobId AwaitFetch w id); [|exact Hne].
    eapply HP; eassumption.
  - destruct (string_dec jobId id) as [<-|Hne].
    + rewrite assoc_get_set_eq. intros [= <-]. discriminate.
    + rewrite assoc_get_set_ne by assumption. intros Hg Hp Hc.
      apply (drop_task_keeps_others jobId ph w id); [|congruence].
      eapply HP; eassumption.
  - destruct (string_dec jobId id) as [<-|Hne].
    + rewrite assoc_get_set_eq. intros [= <-]. discriminate.
    + rewrite assoc_get_set_ne by assumption. intros Hg Hp Hc.
      apply (drop_task_keeps_others jobId AwaitJson w id); [|congruence].
      eapply HP; eassumption.
  - intros Hg Hp Hc. destruct (string_dec id jobId) as [->|Hne]; [congruence|].
    apply (drop_task_keeps_others jobId ph w id); [|exact Hne].
    eapply HP; eassumption.
  - intros Hg Hp Hc. apply (HP id j0); [|exact Hp|exact Hc].
    eapply assoc_get_filter_Some; [apply (inv_keys_distinct w Hinv) | exact Hg].
Qed.

Lemma transition_calls_issued w w' :
  transition w w' ->
  (forall c, In c (outbox w) ->
             exists id, call_jobId c = VStr id /\ In id (issued w)) ->
  forall c, In c (outbox w') ->
            exists id, call_jobId c = VStr id /\ In id (issued w').
Proof.
  intros Htr HI c Hc.
  pose proof (transition_issued w w' Htr) as Hincl.
  assert (Hold : In c (outbox w) ->
                 exists id, call_jobId c = VStr id /\ In id (issued w')).
  { intros H. destruct (HI c H) as [id [Hid Hiss]]. exists id. auto. }
  destruct Htr; simpl in Hc; try (now apply Hold).
  apply in_app_or in Hc. destruct Hc as [Hc|[<-|[]]]; [now apply Hold|].
  exists jobId. split; [reflexivity|]. simpl. apply in_or_app. right. now left.
Qed.

Section TasksAndCalls.
Variable dateParse : string -> option Z.

(** X14.  In every state of a run the table has one record per job id and
    every id in it was issued by [uuidv4()]; there is at most one waiting
    task per job; a record whose task is waiting is processing, so a
    failed or successful record has no task; and a processing record whose
    payload was sent has its task waiting, so it is not left with nothing
    to write it. *)
Theorem waiting_tasks_and_processing_records es w :
  run dateParse es initial = Some w ->
  NoDup (assoc_keys (jobs w)) /\
  incl (assoc_keys (jobs w)) (issued w) /\
  NoDup (task_ids w) /\
  incl (task_ids w) (issued w) /\
  forall jobId j,
    assoc_get jobId (jobs w) = Some j ->
    (In jobId (task_ids w) -> status j = processing) /\
    (status j = processing ->
     (exists c, In c (outbox w) /\ call_jobId c = VStr jobId) ->
     In jobId (task_ids w)).
Proof.
  intros Hrun. pose proof (run_Inv dateParse es w Hrun) as Hinv.
  destruct Hinv as [H1 H2 H3 H4 H5 H6 H7].
  repeat split; trivial.
  - intros Hin. now apply (H5 jobId j).
  - revert jobId j H.
    refine (proj2 (run_invariant dateParse
              (fun w =>
                 (forall c, In c (outbox w) ->
                            exists id, call_jobId c = VStr id /\ In id (issued w)) /\
                 (forall id j, assoc_get id (jobs w) = Some j ->
                               status j = processing ->
                               (exists c, In c (outbox w) /\ call_jobId c = VStr id) ->
                               In id (task_ids w)))
              _ _ es w Hrun)).
    + split; [intros c [] | intros id j H; discriminate].
    + intros w0 w0' Hinv [HI HP] Htr. split.
      * now apply (transition_calls_issued w0 w0').
      * now apply (transition_processing_has_task w0 w0').
Qed.

(** X15.  An event lets an error out of a forwarding task only when a promise of
    that task settles and the record of its job is no longer in the table;
    requests and the sweep never do. *)
Theorem errors_escape_only_without_the_record es w e :
  run dateParse es initial = Some w ->
  enabled e w = true ->
  unhandled (fst (step dateParse e w)) = unhandled w \/
  exists jobId,
    ((exists r, e = EvFetchSettled jobId r) \/ (exists r, e = EvJsonSettled jobId r)) /\
    assoc_get jobId (jobs w) = None /\
    unhandled (fst (step dateParse e w)) = (unhandled w ++ [(jobId, cannotSet)])%list.
Proof.
  intros Hrun Hen. pose proof (run_Inv dateParse es w Hrun) as Hinv.
  destruct e as [req o|jobId r|jobId r|now].
  - left. unfold step.
    destruct (handle_shape req o w) as [w' [r [Hh Hcase]]]. rewrite Hh. simpl.
    destruct Hcase as [->|[b ->]]; [reflexivity|].
    destruct (validSubmission b) eqn:Hv.
    + destruct (postAttendance_valid b o w Hv) as [act [_ [_ Heq]]]. rewrite Heq.
      destruct (loggable b); [|reflexivity]. simpl fst.
      destruct (name_string_or_not (obj_get "name" b)) as [[s Hs]|Hns].
      * rewrite Hs. reflexivity.
      * now rewrite forwarderStart_created_other.
    + now rewrite postAttendance_invalid.
  - simpl in *. apply has_task_In in Hen.
    destruct (assoc_get jobId (jobs w)) as [j|] eqn:Hget.
    + left. unfold fetchSettled. destruct r as [c|m]; [destruct (response_ok c)|];
        try reflexivity;
        rewrite (forwarderCatch_present _ _ _ j) by exact Hget; reflexivity.
    + unfold fetchSettled. destruct r as [c|m]; [destruct (response_ok c)|].
      * now left.
      * right. exists jobId. rewrite forwarderCatch_absent by exact Hget.
        repeat split; eauto.
      * right. exists jobId. rewrite forwarderCatch_absent by exact Hget.
        repeat split; eauto.
  - simpl in *. apply has_task_In in Hen.
    destruct (assoc_get jobId (jobs w)) as [j|] eqn:Hget.
    + left. unfold jsonSettled.
      change (jobs (drop_task jobId AwaitJson w)) with (jobs w).
      rewrite (job_assign_present _ _ _ j) by exact Hget. simpl.
      now rewrite (job_assign_present _ _ _ (setStatus success j))
        by apply assoc_get_set_eq.
    + right. exists jobId. unfold jsonSettled.
      change (jobs (drop_task jobId AwaitJson w)) with (jobs w).
      rewrite job_assign_absent by exact Hget. simpl.
      rewrite forwarderCatch_absent by exact Hget. repeat split; eauto.
  - left. unfold step.
    rewrite cleanupOldJobs_filter by apply (inv_keys_distinct w Hinv). reflexivity.
Qed.

(** X16.  In every state of a run each error that left a task is the
    [TypeError] of the assignment to a missing record, for a job id that
    was issued and whose record is not in the table. *)
Theorem escaped_errors_are_of_removed_records es w jobId message :
  run dateParse es initial = Some w ->
  In (jobId, message) (unhandled w) ->
  message = cannotSet /\ In jobId (issued w) /\ assoc_get jobId (jobs w) = None.
Proof.
  intros Hrun. revert jobId message.
  refine (run_invariant dateParse
            (fun w => forall id m, In (id, m) (unhandled w) ->
                       m = cannotSet /\ In id (issued w) /\ assoc_get id (jobs w) = None)
            _ _ es w Hrun).
  - intros id m [].
  - clear. intros w w' Hinv HP Htr id m Hin.
    pose proof (transition_issued w w' Htr) as Hincl.
    pose proof (transition_rewritten w w' Hinv Htr) as Hrw.
    assert (Hold : In (id, m) (unhandled w) ->
                   m = cannotSet /\ In id (issued w') /\ assoc_get id (jobs w') = None).
    { intros Ho. destruct (HP id m Ho) as [Hm [Hiss Hg]].
      split; [exact Hm|]. split; [now apply Hincl|].
      pose proof (Hrw id Hiss) as H. rewrite Hg in H. simpl in H.
      destruct (assoc_get id (jobs w')); [contradiction | reflexivity]. }
    destruct Htr as [ | jobId act s dep date time now1 now2 _ _ _
                       | jobId act nm now1 _ _ _
                       | jobId act nm now1 _ _ _ _
                       | jobId Hin'
                       | jobId ph j m' Hin' Hget
                       | jobId j v Hin' Hget
                       | jobId ph Hin' Hget
                       | f ]; simpl in Hin; try (now apply Hold).
    apply in_app_or in Hin. destruct Hin as [Hin|[Heq|[]]]; [now apply Hold|].
    injection Heq as <- <-. simpl. repeat split; trivial.
    apply (inv_tasks_issued w Hinv). apply (in_map fst) in Hin'. exact Hin'.
Qed.

(** X17.  No retries: in every state of a run each outbound call is a POST with
    the content-type and user-agent headers and the timeout option 30000,
    to the webhook of the action in its payload; the calls carry distinct
    job ids, all of them issued, so no job is ever sent twice. *)
Theorem one_call_per_job es w :
  run dateParse es initial = Some w ->
  Forall call_shape (outbox w) /\
  NoDup (map call_jobId (outbox w)) /\
  forall c, In c (outbox w) ->
            exists jobId, call_jobId c = VStr jobId /\ In jobId (issued w).
Proof.
  intros Hrun.
  refine (run_invariant dateParse
            (fun w => Forall call_shape (outbox w) /\
                      NoDup (map call_jobId (outbox w)) /\
                      forall c, In c (outbox w) ->
                                exists jobId, call_jobId c = VStr jobId /\ In jobId (issued w))
            _ _ es w Hrun).
  - simpl. repeat split; [constructor | constructor | intros c []].
  - clear. intros w w' Hinv [HF [HN HI]] Htr.
    assert (Hgrow : forall jobId,
               Forall call_shape (outbox w) /\
               NoDup (map call_jobId (outbox w)) /\
               forall c, In c (outbox w) ->
                         exists id, call_jobId c = VStr id /\ In id (issued w ++ [jobId])).
    { intros jobId. repeat split; trivial. intros c Hc.
      destruct (HI c Hc) as [id [Hid Hiss]]. exists id.
      split; [exact Hid | apply in_or_app; now left]. }
    destruct Htr as [ | jobId act s dep date time now1 now2 Hfresh Hact _
                       | jobId act nm now1 _ _ _
                       | jobId act nm now1 _ _ _ _
                       | jobId Hin
                       | jobId ph j m Hin Hget
                       | jobId j v Hin Hget
                       | jobId ph Hin Hget
                       | f ]; simpl; try (repeat split; assumption);
      try apply Hgrow.
    + repeat split.
      * apply Forall_app. split; [exact HF|]. constructor; [|constructor].
        repeat split. exists act. split; [exact Hact|]. split; [reflexivity|].
        now apply webhookUrl_action.
      * rewrite map_app. apply NoDup_app; [exact HN | repeat constructor; simpl; tauto|].
        intros a Ha [<-|[]]. apply in_map_iff in Ha.
        destruct Ha as [c [Hc Hin]]. destruct (HI c Hin) as [id [Hid Hiss]].
        assert (Heq : VStr id = VStr jobId) by (rewrite <- Hid; exact Hc).
        injection Heq as ->. contradiction.
      * intros c Hc. apply in_app_or in Hc. destruct Hc as [Hc|[<-|[]]].
        -- destruct (HI c Hc) as [id [Hid Hiss]]. exists id.
           split; [exact Hid | apply in_or_app; now left].
        -- exists jobId. split; [reflexivity | apply in_or_app; right; now left].
Qed.

End TasksAndCalls.

(** ** The sweep, again *)

Section SweepAgain.
Variable dateParse : string -> option Z.

Lemma expired_later c1 c2 j :
  c1 <= c2 -> expired dateParse c1 j = true -> expired dateParse c2 j = true.
Proof.
  unfold expired. intros Hle. destruct (dateParse (timestamp j)) as [t|]; [|trivial].
  intros H. apply Z.ltb_lt in H. apply Z.ltb_lt. lia.
Qed.

(** X19.  Sweeps compose: on a table with distinct keys, a sweep followed by a
    sweep at the same or a later time leaves what the later sweep alone
    leaves; in particular a sweep repeated at the same time removes
    nothing more. *)
Theorem sweeps_compose now1 now2 js :
  NoDup (assoc_keys js) ->
  now1 <= now2 ->
  bind (cleanupOldJobs dateParse now1 js) (cleanupOldJobs dateParse now2)
  = cleanupOldJobs dateParse now2 js.
Proof.
  intros Hnd Hle. rewrite (cleanupOldJobs_filter dateParse now1 js Hnd). simpl.
  rewrite cleanupOldJobs_filter by now apply filter_keys_NoDup.
  rewrite (cleanupOldJobs_filter dateParse now2 js Hnd).
  f_equal. rewrite filter_twice. apply filter_ext. intros [k j]. simpl.
  destruct (expired dateParse (now1 - 3600000) j) eqn:H1; simpl; [|reflexivity].
  rewrite (expired_later (now1 - 3600000) (now2 - 3600000) j); [reflexivity | lia | exact H1].
Qed.

(** X18.  In every state of a run the sweep runs to its end without throwing:
    it keeps, in their order and unchanged, the records that are not due,
    and touches nothing else; a task whose record it removes stays
    waiting. *)
Theorem sweep_of_a_reachable_state es w now :
  run dateParse es initial = Some w ->
  step dateParse (EvCleanup now) w
  = (mkWorld
       (filter (fun e => negb (expired dateParse (now - 3600000) (snd e))) (jobs w))
       (tasks w) (issued w) (outbox w) (unhandled w),
     None).
Proof.
  intros Hrun. unfold step.
  rewrite cleanupOldJobs_filter
    by apply (inv_keys_distinct w (run_Inv dateParse es w Hrun)).
  reflexivity.
Qed.

Lemma getStatus_new_record jobId w j :
  assoc_get jobId (jobs w) = Some j ->
  truthy (name j) = true ->
  n8nResponse j = None ->
  code (getStatus jobId w) = 200 /\
  js_get "status" (body (getStatus jobId w)) = VStr (status_string (status j)) /\
  js_get "error" (body (getStatus jobId w)) = js_or (opt_prop VStr (error j)) VNull /\
  js_get "n8nResponse" (body (getStatus jobId w)) = VNull.
Proof.
  intros Hget Hname Hn. unfold getStatus. rewrite Hget.
  destruct j as [st ac nm ts er nr]. simpl in *. subst nr.
  unfold res_json, js_or.
  destruct nm; try discriminate;
    (destruct er as [m|]; simpl; [destruct (m =? "")%string; simpl|]);
    repeat split; reflexivity.
Qed.

(** X7.  Polling a job id around its submission: in a state of a run, before
    the submission that gets the id from [uuidv4()], the status route
    answers 404 for it; right after a valid submission it answers 200, with
    status 'processing' and no error when the name is a string or when the
    submission was answered 500, and with status 'failed' and the error of
    [name.trim()] when the fields were fit for the log and the name is not
    a string. *)
Theorem status_before_and_after_submission es w b o :
  run dateParse es initial = Some w ->
  ~ In (o_uuid o) (issued w) ->
  validSubmission b = true ->
  getStatus (o_uuid o) w = mkResponse 404 (VObj [("status", VStr "not_found")]) /\
  code (getStatus (o_uuid o) (fst (postAttendance b o w))) = 200 /\
  js_get "status" (body (getStatus (o_uuid o) (fst (postAttendance b o w))))
  = VStr (if loggable b
          then match obj_get "name" b with
               | VStr _ => "processing"
               | _ => "failed"
               end
          else "processing") /\
  js_get "error" (body (getStatus (o_uuid o) (fst (postAttendance b o w))))
  = (if loggable b
     then match obj_get "name" b with
          | VStr _ => VNull
          | _ => VStr nameNotAFunction
          end
     else VNull) /\
  js_get "n8nResponse" (body (getStatus (o_uuid o) (fst (postAttendance b o w))))
  = VNull.
Proof.
  intros Hrun Hfresh Hv. pose proof (run_Inv dateParse es w Hrun) as Hinv. split.
  - unfold getStatus.
    replace (assoc_get (o_uuid o) (jobs w)) with (@None Job); [reflexivity|].
    symmetry. apply assoc_get_None. intros Hin.
    apply Hfresh. now apply (inv_keys_issued w Hinv).
  - destruct (validSubmission_fields b Hv) as [Hname _].
    destruct (postAttendance_valid b o w Hv) as [act [_ [_ Heq]]].
    rewrite Heq. destruct (loggable b); simpl fst.
    + destruct (name_string_or_not (obj_get "name" b)) as [[s Hs]|Hns].
      * rewrite Hs in *.
        apply (getStatus_new_record (o_uuid o) _
                 (mkJob processing act (VStr s) (toISOString (o_now1 o)) None None));
          trivial.
        unfold created, forwarderStart. rewrite Hs. cbn [jobs].
        apply assoc_get_set_eq.
      * rewrite forwarderStart_created_other by exact Hns.
        destruct (getStatus_new_record (o_uuid o)
                    (mkWorld
                       (assoc_set (o_uuid o)
                          (mkJob failed act (obj_get "name" b) (toISOString (o_now1 o))
                             (Some nameNotAFunction) None) (jobs w))
                       (tasks w) (issued w ++ [o_uuid o]) (outbox w) (unhandled w))
                    (mkJob failed act (obj_get "name" b) (toISOString (o_now1 o))
                       (Some nameNotAFunction) None))
          as [Hc [Hs [He Hn]]]; trivial; [apply assoc_get_set_eq|].
        rewrite Hc, Hs, He, Hn.
        destruct (obj_get "name" b); try (repeat split; reflexivity).
        now destruct (Hns s).
    + destruct (getStatus_new_record (o_uuid o) (created b act o w)
                  (mkJob processing act (obj_get "name" b) (toISOString (o_now1 o))
                     None None))
        as [Hc [Hs [He Hn]]]; trivial; [apply assoc_get_set_eq|].
      rewrite Hc, Hs, He, Hn. repeat split; reflexivity.
Qed.

End SweepAgain.

(** ** The name in the payload *)

Section StringFacts.
Local Open Scope string_scope.

Lemma sapp_assoc (a b c : string) : (a ++ b) ++ c = a ++ (b ++ c).
Proof. induction a as [|x a IH]; simpl; [reflexivity | now rewrite IH]. Qed.

Lemma sapp_empty_r (a : string) : a ++ "" = a.
Proof. induction a as [|x a IH]; simpl; [reflexivity | now rewrite IH]. Qed.

Lemma sapp_length (a b : string) :
  String.length (a ++ b) = (String.length a + String.length b)%nat.
Proof. induction a as [|x a IH]; simpl; [reflexivity | now rewrite IH]. Qed.

Lemma sapp_cancel_l (a b c : string) : a ++ b = a ++ c -> b = c.
Proof. induction a as [|x a IH]; simpl; [trivial|]. intros [= H]. now apply IH. Qed.

Lemma reverseOnto_app (s acc : string) : reverseOnto s acc = reverse s ++ acc.
Proof.
  unfold reverse. revert acc. induction s as [|c r IH]; intros acc; simpl.
  - reflexivity.
  - rewrite (IH (String c acc)), (IH (String c "")), sapp_assoc. reflexivity.
Qed.

Lemma reverse_cons c (s : string) : reverse (String c s) = reverse s ++ String c "".
Proof. unfold reverse at 1. simpl. apply reverseOnto_app. Qed.

Lemma reverse_app (a b : string) : reverse (a ++ b) = reverse b ++ reverse a.
Proof.
  induction a as [|x a IH]; simpl.
  - now rewrite sapp_empty_r.
  - now rewrite !reverse_cons, IH, sapp_assoc.
Qed.

Lemma reverse_involutive (s : string) : reverse (reverse s) = s.
Proof.
  induction s as [|c r IH]; [reflexivity|].
  rewrite reverse_cons, reverse_app, IH. reflexivity.
Qed.

Lemma reverse_length (s : string) : String.length (reverse s) = String.length s.
Proof.
  induction s as [|c r IH]; [reflexivity|].
  rewrite reverse_cons, sapp_length, IH. simpl. lia.
Qed.

Lemma dropPrefix_Some p s u : dropPrefix p s = Some u <-> s = p ++ u.
Proof.
  revert s. induction p as [|a p IH]; intros s; simpl.
  - split; [intros [= ->] | intros ->]; reflexivity.
  - destruct s as [|b s]; [split; discriminate|].
    destruct (Ascii.eqb_spec a b) as [->|Hne].
    + rewrite IH. split; [intros -> | intros [= ->]]; reflexivity.
    + split; [discriminate | intros [= H _]; congruence].
Qed.

Lemma dropAny_Some ps s u :
  dropAny ps s = Some u -> exists p, In p ps /\ s = p ++ u.
Proof.
  induction ps as [|p rest IH]; simpl; [discriminate|].
  destruct (dropPrefix p s) as [t|] eqn:Hp.
  - intros [= ->]. exists p. split; [now left | now apply dropPrefix_Some].
  - intros H. destruct (IH H) as [q [Hq Heq]]. exists q. split; [now right | exact Heq].
Qed.

Lemma dropAny_None ps s :
  dropAny ps s = None -> forall p u, In p ps -> s <> p ++ u.
Proof.
  induction ps as [|q rest IH]; simpl; [intros _ p u []|].
  destruct (dropPrefix q s) as [t|] eqn:Hq; [discriminate|].
  intros H p u [<-|Hin] Heq.
  - apply dropPrefix_Some in Heq. congruence.
  - exact (IH H p u Hin Heq).
Qed.

Lemma madeOf_app ps a b : madeOf ps a -> madeOf ps b -> madeOf ps (a ++ b).
Proof.
  induction 1 as [|p s Hp Hs IH]; intros Hb; simpl; [exact Hb|].
  rewrite sapp_assoc. apply madeOf_more; auto.
Qed.

Lemma madeOf_reverse ps s : madeOf (map reverse ps) s -> madeOf ps (reverse s).
Proof.
  induction 1 as [|rp s Hp Hs IH]; [constructor|].
  apply in_map_iff in Hp. destruct Hp as [p [<- Hp]].
  rewrite reverse_app, reverse_involutive. apply madeOf_app; [exact IH|].
  rewrite <- (sapp_empty_r p). apply madeOf_more; [exact Hp | constructor].
Qed.

Lemma dropWhile_split ps n :
  forall s, exists pre, s = pre ++ dropWhile ps n s /\ madeOf ps pre.
Proof.
  induction n as [|n IH]; intros s; simpl.
  - exists "". split; [reflexivity | constructor].
  - destruct (dropAny ps s) as [t|] eqn:Hd.
    + destruct (dropAny_Some ps s t Hd) as [p [Hp ->]].
      destruct (IH t) as [pre [Heq Hm]].
      exists (p ++ pre). split; [now rewrite sapp_assoc, <- Heq|].
      now apply madeOf_more.
    + exists "". split; [reflexivity | constructor].
Qed.

Lemma dropWhile_done ps n :
  (forall p, In p ps -> p <> "") ->
  forall s, (String.length s <= n)%nat -> dropAny ps (dropWhile ps n s) = None.
Proof.
  intros Hne. induction n as [|n IH]; intros s Hlen; simpl.
  - destruct s; [|simpl in Hlen; lia].
    destruct (dropAny ps "") as [t|] eqn:Hd; [|reflexivity].
    destruct (dropAny_Some ps "" t Hd) as [p [Hp Heq]].
    destruct p; [now destruct (Hne "" Hp) | discriminate].
  - destruct (dropAny ps s) as [t|] eqn:Hd; [|exact Hd].
    destruct (dropAny_Some ps s t Hd) as [p [Hp ->]].
    apply IH. rewrite sapp_length in Hlen.
    destruct p; [now destruct (Hne "" Hp) | simpl in Hlen; lia].
Qed.

Lemma one_is_a_prefix (p q u v : string) :
  p ++ u = q ++ v ->
  (exists r, dropPrefix p q = Some r) \/ (exists r, dropPrefix q p = Some r).
Proof.
  revert q. induction p as [|a p IH]; intros q H; simpl.
  - left. now exists q.
  - destruct q as [|b q]; [right; simpl; now eexists|].
    simpl in H. injection H as -> H. rewrite Ascii.eqb_refl.
    destruct (IH q H) as [Hl|[r Hr]]; [now left|].
    right. exists r. simpl. now rewrite Ascii.eqb_refl.
Qed.

(** No white space is the beginning of another, and none is empty. *)
Lemma whiteSpaces_prefix_free p q u v :
  In p whiteSpaces -> In q whiteSpaces -> p ++ u = q ++ v -> p = q.
Proof.
  assert (Hcheck :
    forallb (fun p => forallb (fun q =>
       (p =? q) || match dropPrefix p q with Some _ => false | None => true end)
       whiteSpaces) whiteSpaces = true) by (vm_compute; reflexivity).
  intros Hp Hq Heq.
  assert (Hpq : forall a c, In a whiteSpaces -> In c whiteSpaces ->
                 forall r, dropPrefix a c = Some r -> a = c).
  { intros a c Ha Hc r Hr.
    rewrite forallb_forall in Hcheck. specialize (Hcheck a Ha).
    rewrite forallb_forall in Hcheck. specialize (Hcheck c Hc).
    rewrite Hr in Hcheck. rewrite orb_false_r in Hcheck.
    now apply String.eqb_eq. }
  destruct (one_is_a_prefix p q u v Heq) as [[r Hr]|[r Hr]].
  - exact (Hpq p q Hp Hq r Hr).
  - symmetry. exact (Hpq q p Hq Hp r Hr).
Qed.

Lemma whiteSpaces_not_empty p : In p whiteSpaces -> p <> "".
Proof.
  assert (Hcheck : forallb (fun p => negb (p =? "")) whiteSpaces = true)
    by (vm_compute; reflexivity).
  intros Hp ->. rewrite forallb_forall in Hcheck. now specialize (Hcheck "" Hp).
Qed.

Lemma dropWhile_made ps :
  (forall p, In p ps -> p <> "") ->
  (forall p q u v, In p ps -> In q ps -> p ++ u = q ++ v -> p = q) ->
  forall s, madeOf ps s ->
  forall n, (String.length s <= n)%nat -> dropWhile ps n s = "".
Proof.
  intros Hne Hfree s Hb.
  induction Hb as [|p s Hp Hs IH]; intros n Hlen.
  - destruct n; simpl; [reflexivity|].
    destruct (dropAny ps "") as [t|] eqn:Hd; [|reflexivity].
    destruct (dropAny_Some _ _ _ Hd) as [q [Hq Heq]].
    destruct q; [now destruct (Hne "" Hq) | discriminate].
  - rewrite sapp_length in Hlen.
    destruct n as [|n].
    { destruct p; [now destruct (Hne "" Hp) | simpl in Hlen; lia]. }
    simpl. destruct (dropAny ps (p ++ s)) as [t|] eqn:Hd.
    + destruct (dropAny_Some _ _ _ Hd) as [q [Hq Heq]].
      assert (p = q) by (eapply Hfree; eassumption). subst q.
      apply sapp_cancel_l in Heq. subst t. apply IH.
      destruct p; [now destruct (Hne "" Hp) | simpl in Hlen; lia].
    + exfalso. exact (dropAny_None _ _ Hd p s Hp eq_refl).
Qed.

Lemma trimStart_blank s : blank s -> trimStart s = "".
Proof.
  intros Hb. unfold trimStart.
  apply (dropWhile_made whiteSpaces whiteSpaces_not_empty whiteSpaces_prefix_free s Hb).
  apply Nat.le_refl.
Qed.

(** What [trim] returns: the string without a longest run of white space
    at each end. *)
Lemma trim_spec s :
  exists pre post,
    s = pre ++ trim s ++ post /\ blank pre /\ blank post /\
    (forall p u, In p whiteSpaces -> trim s <> p ++ u) /\
    (forall p u, In p whiteSpaces -> trim s <> u ++ p).
Proof.
  destruct (dropWhile_split whiteSpaces (String.length s) s) as [pre [Hpre Hbpre]].
  fold (trimStart s) in Hpre.
  set (u0 := trimStart s) in *.
  destruct (dropWhile_split (map reverse whiteSpaces) (String.length u0) (reverse u0))
    as [rpost [Hpost Hbpost]].
  set (d := dropWhile (map reverse whiteSpaces) (String.length u0) (reverse u0)) in *.
  assert (Ht : trim s = reverse d) by reflexivity.
  assert (Hu0 : u0 = trim s ++ reverse rpost).
  { rewrite Ht, <- reverse_app, <- Hpost. symmetry. apply reverse_involutive. }
  assert (Hstart : dropAny whiteSpaces u0 = None).
  { apply dropWhile_done; [apply whiteSpaces_not_empty | apply Nat.le_refl]. }
  assert (Hend : dropAny (map reverse whiteSpaces) d = None).
  { apply dropWhile_done; [|rewrite reverse_length; apply Nat.le_refl].
    intros p Hp Hempty. apply in_map_iff in Hp. destruct Hp as [q [Hq Hin]].
    apply (whiteSpaces_not_empty q Hin).
    rewrite <- (reverse_involutive q), Hq, Hempty. reflexivity. }
  exists pre, (reverse rpost). split; [now rewrite <- Hu0|].
  split; [exact Hbpre|]. split; [now apply madeOf_reverse|]. split.
  - intros p u Hp Heq. apply (dropAny_None _ _ Hstart p (u ++ reverse rpost) Hp).
    now rewrite Hu0, Heq, sapp_assoc.
  - intros p u Hp Heq.
    apply (dropAny_None _ _ Hend (reverse p) (reverse u)).
    + apply in_map. exact Hp.
    + rewrite <- reverse_app, <- Heq, Ht. symmetry. apply reverse_involutive.
Qed.

End StringFacts.

(** X5.  The name in the payload is the submitted name without the white
    space at its two ends, and nothing else is removed: the name is some
    white space, the payload name, and some white space, and the payload
    name neither starts nor ends with white space.  The record keeps the
    name as submitted.  A name of white space only passes the validation
    and is sent as the empty string.  (For a valid submission whose
    fields are fit for the log.) *)
Theorem payload_name_is_trimmed b o w s :
  validSubmission b = true ->
  loggable b = true ->
  obj_get "name" b = VStr s ->
  exists c t pre post,
    outbox (fst (postAttendance b o w)) = (outbox w ++ [c])%list /\
    js_get "name" (w_body c) = VStr t /\
    s = (pre ++ t ++ post)%string /\
    blank pre /\ blank post /\
    (forall p u, In p whiteSpaces -> t <> (p ++ u)%string) /\
    (forall p u, In p whiteSpaces -> t <> (u ++ p)%string) /\
    (blank s -> t = EmptyString) /\
    exists j, assoc_get (o_uuid o) (jobs (fst (postAttendance b o w))) = Some j /\
              name j = VStr s.
Proof.
  intros Hv Hl Hname.
  destruct (postAttendance_valid b o w Hv) as [act [_ [_ Heq]]].
  rewrite Heq, Hl. simpl fst. unfold created. rewrite Hname. unfold forwarderStart.
  cbn [jobs tasks issued outbox unhandled].
  destruct (trim_spec s) as [pre [post [Hsplit [Hpre [Hpost [Hhead Hlast]]]]]].
  eexists. exists (trim s), pre, post.
  split; [reflexivity|]. split; [reflexivity|].
  split; [exact Hsplit|]. split; [exact Hpre|]. split; [exact Hpost|].
  split; [exact Hhead|]. split; [exact Hlast|]. split.
  - intros Hblank. unfold trim. now rewrite (trimStart_blank s Hblank).
  - rewrite assoc_get_set_eq. eexists. split; reflexivity.
Qed.

(** ** Records that no task will write *)

Lemma drop_task_subset jobId ph w id :
  In id (map fst (tasks (drop_task jobId ph w))) -> In id (task_ids w).
Proof.
  unfold drop_task, task_ids. simpl. intros H.
  apply in_map_iff in H. destruct H as [t [Ht Hin]].
  apply filter_In in Hin. apply in_map_iff. exists t. tauto.
Qed.

Lemma transition_idle w w' :
  Inv w -> transition w w' ->
  forall id, In id (issued w) -> ~ In id (task_ids w) ->
             ~ In id (task_ids w') /\
             (assoc_get id (jobs w') = None \/
              assoc_get id (jobs w') = assoc_get id (jobs w)).
Proof.
  intros Hinv Htr id Hiss Hidle. unfold task_ids in *.
  assert (Htask : forall jobId ph, In (jobId, ph) (tasks w) -> id <> jobId).
  { intros jobId ph Hin ->. apply Hidle. apply (in_map fst) in Hin. exact Hin. }
  destruct Htr as [ | jobId act s dep date time now1 now2 Hfresh _ _
                     | jobId act nm now1 Hfresh _ _
                     | jobId act nm now1 Hfresh _ _ _
                     | jobId Hin
                     | jobId ph j m Hin Hget
                     | jobId j v Hin Hget
                     | jobId ph Hin Hget
                     | f ]; simpl.
  - auto.
  - split.
    + rewrite map_app, in_app_iff. simpl. intros [H|[H|[]]]; [auto | congruence].
    + right. apply assoc_get_set_ne. congruence.
  - split; [exact Hidle|]. right. apply assoc_get_set_ne. congruence.
  - split; [exact Hidle|]. right. apply assoc_get_set_ne. congruence.
  - split; [|now right].
    rewrite map_app, in_app_iff. simpl. intros [H|[H|[]]].
    + apply Hidle. now apply (drop_task_subset jobId AwaitFetch w).
    + symmetry in H. now apply (Htask jobId AwaitFetch).
  - split.
    + intros H. apply Hidle. now apply (drop_task_subset jobId ph w).
    + right. apply assoc_get_set_ne. intros ->. now apply (Htask id ph).
  - split.
    + intros H. apply Hidle. now apply (drop_task_subset jobId AwaitJson w).
    + right. apply assoc_get_set_ne. intros ->. now apply (Htask id AwaitJson).
  - split; [|now right].
    intros H. apply Hidle. now apply (drop_task_subset jobId ph w).
  - split; [exact Hidle|].
    rewrite assoc_get_filter by apply (inv_keys_distinct w Hinv).
    destruct (assoc_get id (jobs w)) as [x|]; [|now left].
    destruct (f (id, x)); auto.
Qed.

Section Idle.
Variable dateParse : string -> option Z.

(** X20.  A record with no waiting task is never written: from a state of
    a run in which no task waits for a job, the record of the job stays
    exactly as it is until the sweep removes it, and no task for it ever
    appears.  So a failed or successful record is final, and the record
    that a submission answered 500 leaves stays processing until it is
    swept. *)
Theorem record_without_a_task_is_never_written es1 es2 w1 w2 jobId j1 :
  run dateParse es1 initial = Some w1 ->
  run dateParse es2 w1 = Some w2 ->
  assoc_get jobId (jobs w1) = Some j1 ->
  ~ In jobId (task_ids w1) ->
  (assoc_get jobId (jobs w2) = None \/ assoc_get jobId (jobs w2) = Some j1) /\
  ~ In jobId (task_ids w2).
Proof.
  intros Hr1 Hr2 Hg1 Hidle.
  pose proof (run_Inv dateParse es1 w1 Hr1) as Hinv.
  pose proof (run_issued dateParse es1 w1 jobId j1 Hr1 Hg1) as Hiss.
  assert (H : incl (issued w1) (issued w2) /\
              forall id, In id (issued w1) -> ~ In id (task_ids w1) ->
                ~ In id (task_ids w2) /\
                (assoc_get id (jobs w2) = None \/
                 assoc_get id (jobs w2) = assoc_get id (jobs w1))).
  { apply (run_relation dateParse
             (fun w w' =>
                incl (issued w) (issued w') /\
                forall id, In id (issued w) -> ~ In id (task_ids w) ->
                  ~ In id (task_ids w') /\
                  (assoc_get id (jobs w') = None \/
                   assoc_get id (jobs w') = assoc_get id (jobs w)))
             ) with (es := es2); trivial.
    - intros w. split; [apply incl_refl | auto].
    - intros wa wb wc [Hi1 Hs1] [Hi2 Hs2]. split; [eapply incl_tran; eassumption|].
      intros id Hid Hno. destruct (Hs1 id Hid Hno) as [Hno2 Hg2].
      destruct (Hs2 id (Hi1 id Hid) Hno2) as [Hno3 Hg3]. split; [exact Hno3|].
      destruct Hg3 as [Hg3|Hg3]; [now left|].
      rewrite Hg3. exact Hg2.
    - intros w w' Hi Htr. split; [now apply transition_issued|].
      now apply transition_idle. }
  destruct H as [_ H]. destruct (H jobId Hiss Hidle) as [Hno Hg].
  split; [|exact Hno]. rewrite <- Hg1. exact Hg.
Qed.

End Idle.

(** The submission of [oddDepartment] is answered 500; its record is
    processing and no task and no call is made for it. *)
Example odd_department_is_answered_500 :
  step parseISO submitOdd initial
  = (mkWorld [(aliceId, oddRecord)] [] [aliceId] [] [],
     Some (mkResponse 500
             (VObj [ ("error", VStr "Internal server error");
                     ("message", VStr "Cannot convert object to primitive value") ]))).
Proof. reflexivity. Qed.

(** ** The further theorems on the sample data *)

Lemma valid_submission_with_string_name_witness :
  validSubmission alice = true /\
  loggable alice = true /\
  obj_get "name" alice = VStr "  Alice " /\
  exists act,
    obj_get "action" alice = VStr act /\
    (act = "login" \/ act = "logout") /\
    snd (postAttendance alice (mkOracle aliceId nineOClock nineOClock) initial)
    = mkResponse 200
        (VObj [ ("success", VBool true);
                ("jobId", VStr aliceId);
                ("message",
                 VStr (if (act =? "login")%string
                       then "Login request submitted successfully"
                       else "Logout request submitted successfully"));
                ("action", VStr act) ]) /\
    fst (postAttendance alice (mkOracle aliceId nineOClock nineOClock) initial)
    = mkWorld
        [(aliceId, mkJob processing act (VStr "  Alice ") (toISOString nineOClock) None None)]
        [(aliceId, AwaitFetch)]
        [aliceId]
        [mkCall (webhookBase ++ act) "POST" webhookHeaders
           (webhookData "  Alice " (VStr "Eng") (VStr "2024-01-01") (VStr "09:00")
              act aliceId nineOClock) 30000]
        [].
Proof.
  assert (H1 : validSubmission alice = true) by reflexivity.
  assert (Hl : loggable alice = true) by reflexivity.
  assert (H2 : obj_get "name" alice = VStr "  Alice ") by reflexivity.
  split; [exact H1|]. split; [exact Hl|]. split; [exact H2|].
  exact (valid_submission_with_string_name alice
           (mkOracle aliceId nineOClock nineOClock) initial "  Alice " H1 Hl H2).
Defined.

Lemma valid_submission_with_other_name_witness :
  validSubmission numericName = true /\
  loggable numericName = true /\
  (forall s, obj_get "name" numericName <> VStr s) /\
  exists act,
    obj_get "action" numericName = VStr act /\
    code (snd (postAttendance numericName (mkOracle aliceId nineOClock nineOClock) initial))
    = 200 /\
    fst (postAttendance numericName (mkOracle aliceId nineOClock nineOClock) initial)
    = mkWorld
        [(aliceId, mkJob failed act (VNum 5) (toISOString nineOClock)
                     (Some nameNotAFunction) None)]
        [] [aliceId] [] [].
Proof.
  assert (H1 : validSubmission numericName = true) by reflexivity.
  assert (Hl : loggable numericName = true) by reflexivity.
  assert (H2 : forall s, obj_get "name" numericName <> VStr s)
    by (intros s; discriminate).
  split; [exact H1|]. split; [exact Hl|]. split; [exact H2|].
  exact (valid_submission_with_other_name numericName
           (mkOracle aliceId nineOClock nineOClock) initial H1 Hl H2).
Defined.

Lemma json_success_is_recorded_witness :
  assoc_get aliceId (jobs afterSubmit) = Some aliceProcessing /\
  assoc_get aliceId
    (jobs (jsonSettled aliceId (Parsed (VObj [("ok", VBool true)])) afterSubmit))
  = Some (mkJob success "login" (VStr "  Alice ") "2024-01-01T09:00:00.000Z" None
            (Some (VObj [("ok", VBool true)]))) /\
  unhandled (jsonSettled aliceId (Parsed (VObj [("ok", VBool true)])) afterSubmit)
  = unhandled afterSubmit.
Proof.
  assert (H : assoc_get aliceId (jobs afterSubmit) = Some aliceProcessing)
    by reflexivity.
  split; [exact H|].
  exact (json_success_is_recorded aliceId (Parsed (VObj [("ok", VBool true)]))
           afterSubmit aliceProcessing H).
Defined.

Lemma record_is_written_at_most_once_witness :
  run parseISO [submitAlice] initial = Some afterSubmit /\
  run parseISO [ EvFetchSettled aliceId (Responded 200);
                 EvJsonSettled aliceId ParseFailed ] afterSubmit
  = Some afterSuccess /\
  assoc_get aliceId (jobs afterSubmit) = Some aliceProcessing /\
  assoc_get aliceId (jobs afterSuccess) = Some aliceSucceeded /\
  (aliceSucceeded = aliceProcessing \/
   (status aliceProcessing = processing /\
    ((exists message,
         aliceSucceeded
         = mkJob failed "login" (VStr "  Alice ") "2024-01-01T09:00:00.000Z"
             (Some message) None) \/
     (exists v,
         aliceSucceeded
         = mkJob success "login" (VStr "  Alice ") "2024-01-01T09:00:00.000Z"
             None (Some v))))) /\
  action aliceSucceeded = action aliceProcessing /\
  name aliceSucceeded = name aliceProcessing /\
  timestamp aliceSucceeded = timestamp aliceProcessing /\
  (status aliceProcessing <> processing -> aliceSucceeded = aliceProcessing).
Proof.
  assert (H1 : run parseISO [submitAlice] initial = Some afterSubmit)
    by (vm_compute; reflexivity).
  assert (H2 : run parseISO [ EvFetchSettled aliceId (Responded 200);
                              EvJsonSettled aliceId ParseFailed ] afterSubmit
               = Some afterSuccess) by (vm_compute; reflexivity).
  assert (H3 : assoc_get aliceId (jobs afterSubmit) = Some aliceProcessing)
    by reflexivity.
  assert (H4 : assoc_get aliceId (jobs afterSuccess) = Some aliceSucceeded)
    by reflexivity.
  split; [exact H1|]. split; [exact H2|]. split; [exact H3|]. split; [exact H4|].
  exact (record_is_written_at_most_once parseISO _ _ _ _ _ _ _ H1 H2 H3 H4).
Defined.

Lemma removed_record_never_returns_witness :
  run parseISO [submitAlice; EvCleanup (nineOClock + 3600001)] initial
  = Some afterSweep /\
  run parseISO [EvFetchSettled aliceId (Rejected "fetch failed")] afterSweep
  = Some afterEscape /\
  In aliceId (issued afterSweep) /\
  assoc_get aliceId (jobs afterSweep) = None /\
  assoc_get aliceId (jobs afterEscape) = None /\
  getStatus aliceId afterEscape = mkResponse 404 (VObj [("status", VStr "not_found")]).
Proof.
  assert (H1 : run parseISO [submitAlice; EvCleanup (nineOClock + 3600001)] initial
               = Some afterSweep) by (vm_compute; reflexivity).
  assert (H2 : run parseISO [EvFetchSettled aliceId (Rejected "fetch failed")] afterSweep
               = Some afterEscape) by (vm_compute; reflexivity).
  assert (H3 : In aliceId (issued afterSweep)) by (simpl; auto).
  assert (H4 : assoc_get aliceId (jobs afterSweep) = None) by reflexivity.
  split; [exact H1|]. split; [exact H2|]. split; [exact H3|]. split; [exact H4|].
  exact (removed_record_never_returns parseISO _ _ _ _ _ H1 H2 H3 H4).
Defined.

Lemma records_have_the_shape_of_a_submission_witness :
  run parseISO [submitAlice] initial = Some afterSubmit /\
  assoc_get aliceId (jobs afterSubmit) = Some aliceProcessing /\
  (action aliceProcessing = "login" \/ action aliceProcessing = "logout") /\
  truthy (name aliceProcessing) = true /\
  exists now, timestamp aliceProcessing = toISOString now.
Proof.
  assert (H1 : run parseISO [submitAlice] initial = Some afterSubmit)
    by (vm_compute; reflexivity).
  assert (H2 : assoc_get aliceId (jobs afterSubmit) = Some aliceProcessing)
    by reflexivity.
  split; [exact H1|]. split; [exact H2|].
  exact (records_have_the_shape_of_a_submission parseISO _ _ _ _ H1 H2).
Defined.

Lemma waiting_tasks_and_processing_records_witness :
  run parseISO [submitAlice] initial = Some afterSubmit /\
  NoDup (assoc_keys (jobs afterSubmit)) /\
  incl (assoc_keys (jobs afterSubmit)) (issued afterSubmit) /\
  NoDup (task_ids afterSubmit) /\
  incl (task_ids afterSubmit) (issued afterSubmit) /\
  forall jobId j,
    assoc_get jobId (jobs afterSubmit) = Some j ->
    (In jobId (task_ids afterSubmit) -> status j = processing) /\
    (status j = processing ->
     (exists c, In c (outbox afterSubmit) /\ call_jobId c = VStr jobId) ->
     In jobId (task_ids afterSubmit)).
Proof.
  assert (H1 : run parseISO [submitAlice] initial = Some afterSubmit)
    by (vm_compute; reflexivity).
  split; [exact H1|].
  exact (waiting_tasks_and_processing_records parseISO _ _ H1).
Defined.

Lemma errors_escape_only_without_the_record_witness :
  run parseISO [submitAlice; EvCleanup (nineOClock + 3600001)] initial
  = Some afterSweep /\
  enabled (EvFetchSettled aliceId (Rejected "fetch failed")) afterSweep = true /\
  (unhandled (fst (step parseISO (EvFetchSettled aliceId (Rejected "fetch failed")) afterSweep))
   = unhandled afterSweep \/
   exists jobId,
     ((exists r, EvFetchSettled aliceId (Rejected "fetch failed") = EvFetchSettled jobId r) \/
      (exists r, EvFetchSettled aliceId (Rejected "fetch failed") = EvJsonSettled jobId r)) /\
     assoc_get jobId (jobs afterSweep) = None /\
     unhandled (fst (step parseISO (EvFetchSettled aliceId (Rejected "fetch failed")) afterSweep))
     = (unhandled afterSweep ++ [(jobId, cannotSet)])%list).
Proof.
  assert (H1 : run parseISO [submitAlice; EvCleanup (nineOClock + 3600001)] initial
               = Some afterSweep) by (vm_compute; reflexivity).
  assert (H2 : enabled (EvFetchSettled aliceId (Rejected "fetch failed")) afterSweep = true)
    by reflexivity.
  split; [exact H1|]. split; [exact H2|].
  exact (errors_escape_only_without_the_record parseISO _ _ _ H1 H2).
Defined.

Lemma escaped_errors_are_of_removed_records_witness :
  run parseISO [ submitAlice; EvCleanup (nineOClock + 3600001);
                 EvFetchSettled aliceId (Rejected "fetch failed") ] initial
  = Some afterEscape /\
  In (aliceId, cannotSet) (unhandled afterEscape) /\
  cannotSet = cannotSet /\
  In aliceId (issued afterEscape) /\
  assoc_get aliceId (jobs afterEscape) = None.
Proof.
  assert (H1 : run parseISO [ submitAlice; EvCleanup (nineOClock + 3600001);
                              EvFetchSettled aliceId (Rejected "fetch failed") ] initial
               = Some afterEscape) by (vm_compute; reflexivity).
  assert (H2 : In (aliceId, cannotSet) (unhandled afterEscape)) by (simpl; auto).
  split; [exact H1|]. split; [exact H2|].
  exact (escaped_errors_are_of_removed_records parseISO _ _ _ _ H1 H2).
Defined.

Lemma one_call_per_job_witness :
  run parseISO [submitAlice] initial = Some afterSubmit /\
  outbox afterSubmit = [aliceCall] /\
  Forall call_shape (outbox afterSubmit) /\
  NoDup (map call_jobId (outbox afterSubmit)) /\
  forall c, In c (outbox afterSubmit) ->
            exists jobId, call_jobId c = VStr jobId /\ In jobId (issued afterSubmit).
Proof.
  assert (H1 : run parseISO [submitAlice] initial = Some afterSubmit)
    by (vm_compute; reflexivity).
  split; [exact H1|]. split; [reflexivity|].
  exact (one_call_per_job parseISO _ _ H1).
Defined.

Lemma sweeps_compose_witness :
  NoDup (assoc_keys sampleJobs) /\
  nineOClock + 1000 <= nineOClock + 3600001 /\
  bind (cleanupOldJobs parseISO (nineOClock + 1000) sampleJobs)
    (cleanupOldJobs parseISO (nineOClock + 3600001))
  = cleanupOldJobs parseISO (nineOClock + 3600001) sampleJobs.
Proof.
  assert (H1 : NoDup (assoc_keys sampleJobs)).
  { simpl. repeat constructor; simpl; intuition discriminate. }
  assert (H2 : nineOClock + 1000 <= nineOClock + 3600001) by (unfold nineOClock; lia).
  split; [exact H1|]. split; [exact H2|].
  exact (sweeps_compose parseISO _ _ sampleJobs H1 H2).
Defined.

Lemma sweep_of_a_reachable_state_witness :
  run parseISO [submitAlice] initial = Some afterSubmit /\
  step parseISO (EvCleanup (nineOClock + 3600001)) afterSubmit
  = (mkWorld [] (tasks afterSubmit) (issued afterSubmit) (outbox afterSubmit)
       (unhandled afterSubmit), None).
Proof.
  assert (H1 : run parseISO [submitAlice] initial = Some afterSubmit)
    by (vm_compute; reflexivity).
  split; [exact H1|].
  exact (sweep_of_a_reachable_state parseISO _ _ (nineOClock + 3600001) H1).
Defined.

Lemma status_before_and_after_submission_witness :
  run parseISO [submitAlice] initial = Some afterSubmit /\
  ~ In "second" (issued afterSubmit) /\
  validSubmission numericName = true /\
  getStatus "second" afterSubmit
  = mkResponse 404 (VObj [("status", VStr "not_found")]) /\
  code (getStatus "second"
          (fst (postAttendance numericName (mkOracle "second" nineOClock nineOClock)
                  afterSubmit))) = 200 /\
  js_get "status"
    (body (getStatus "second"
             (fst (postAttendance numericName (mkOracle "second" nineOClock nineOClock)
                     afterSubmit)))) = VStr "failed" /\
  js_get "error"
    (body (getStatus "second"
             (fst (postAttendance numericName (mkOracle "second" nineOClock nineOClock)
                     afterSubmit)))) = VStr nameNotAFunction /\
  js_get "n8nResponse"
    (body (getStatus "second"
             (fst (postAttendance numericName (mkOracle "second" nineOClock nineOClock)
                     afterSubmit)))) = VNull.
Proof.
  assert (H1 : run parseISO [submitAlice] initial = Some afterSubmit)
    by (vm_compute; reflexivity).
  assert (H2 : ~ In "second" (issued afterSubmit))
    by (simpl; intros [H|[]]; discriminate).
  assert (H3 : validSubmission numericName = true) by reflexivity.
  split; [exact H1|]. split; [exact H2|]. split; [exact H3|].
  exact (status_before_and_after_submission parseISO _ _ numericName
           (mkOracle "second" nineOClock nineOClock) H1 H2 H3).
Defined.

Lemma payload_name_is_trimmed_witness :
  validSubmission blankName = true /\
  loggable blankName = true /\
  obj_get "name" blankName = VStr "   " /\
  exists c t pre post,
    outbox (fst (postAttendance blankName (mkOracle aliceId nineOClock nineOClock) initial))
    = [c] /\
    js_get "name" (w_body c) = VStr t /\
    "   " = (pre ++ t ++ post)%string /\
    blank pre /\ blank post /\
    (forall p u, In p whiteSpaces -> t <> (p ++ u)%string) /\
    (forall p u, In p whiteSpaces -> t <> (u ++ p)%string) /\
    (blank "   " -> t = EmptyString) /\
    exists j,
      assoc_get aliceId
        (jobs (fst (postAttendance blankName (mkOracle aliceId nineOClock nineOClock) initial)))
      = Some j /\
      name j = VStr "   ".
Proof.
  assert (H1 : validSubmission blankName = true) by reflexivity.
  assert (Hl : loggable blankName = true) by reflexivity.
  assert (H2 : obj_get "name" blankName = VStr "   ") by reflexivity.
  split; [exact H1|]. split; [exact Hl|]. split; [exact H2|].
  exact (payload_name_is_trimmed blankName
           (mkOracle aliceId nineOClock nineOClock) initial "   " H1 Hl H2).
Defined.

Lemma fetch_failure_is_written_to_the_record_witness :
  assoc_get aliceId (jobs afterSubmit) = Some aliceProcessing /\
  response_ok 503 = false /\
  assoc_get aliceId (jobs (fetchSettled aliceId (Responded 503) afterSubmit))
  = Some (mkJob failed "login" (VStr "  Alice ") "2024-01-01T09:00:00.000Z"
            (Some "N8N webhook responded with status: 503") None) /\
  unhandled (fetchSettled aliceId (Responded 503) afterSubmit) = unhandled afterSubmit.
Proof.
  assert (H1 : assoc_get aliceId (jobs afterSubmit) = Some aliceProcessing)
    by reflexivity.
  assert (H2 : response_ok 503 = false) by reflexivity.
  split; [exact H1|]. split; [exact H2|].
  exact (fetch_failure_is_written_to_the_record aliceId (Responded 503) afterSubmit
           aliceProcessing H1 H2).
Defined.

Lemma record_without_a_task_is_never_written_witness :
  run parseISO [submitOdd] initial = Some afterOdd /\
  run parseISO [ EvCleanup (nineOClock + 1000); submitAlice' ] afterOdd
  = Some afterOddAndAlice /\
  assoc_get aliceId (jobs afterOdd) = Some oddRecord /\
  ~ In aliceId (task_ids afterOdd) /\
  (assoc_get aliceId (jobs afterOddAndAlice) = None \/
   assoc_get aliceId (jobs afterOddAndAlice) = Some oddRecord) /\
  ~ In aliceId (task_ids afterOddAndAlice).
Proof.
  assert (H1 : run parseISO [submitOdd] initial = Some afterOdd)
    by (vm_compute; reflexivity).
  assert (H2 : run parseISO [ EvCleanup (nineOClock + 1000); submitAlice' ] afterOdd
               = Some afterOddAndAlice) by (vm_compute; reflexivity).
  assert (H3 : assoc_get aliceId (jobs afterOdd) = Some oddRecord) by reflexivity.
  assert (H4 : ~ In aliceId (task_ids afterOdd)) by (simpl; tauto).
  split; [exact H1|]. split; [exact H2|]. split; [exact H3|]. split; [exact H4|].
  exact (record_without_a_task_is_never_written parseISO _ _ _ _ _ _ H1 H2 H3 H4).
Defined.
